(** * Quota availability of pretix: [src/pretix/base/models/items.py]

    A shallow embedding of [Quota._availability], [Quota.cache_is_hot],
    [Quota.availability], [Quota.rebuild_cache], [Item.check_quotas] and
    [ItemVariation.check_quotas], followed by the properties of the quota
    availability engine; then the validators, the orderings, the sale
    window of an item and the answers and identifiers of questions of the
    same file, with their properties.

    Python integers are [Z].  A [datetime] is the number of microseconds
    since the epoch (the resolution of Python's [datetime]); the test
    [(a - b).total_seconds() < 120] is then [a - b < 120 * 10^6].  Optional
    values ([None]) are [option].  The database, the wall clock and the trace
    of the calls that leave the process are one explicit [World], threaded
    through every method by a small state monad. *)

From Stdlib Require Import ZArith List Bool Lia Ascii String.
From stdpp Require Import base gmap.
Import ListNotations.
Local Open Scope Z_scope.

(** ** Data model *)

(** The AVAILABILITY_* constants of [class Quota]. *)
Definition AVAILABILITY_GONE : Z := 0.
Definition AVAILABILITY_ORDERED : Z := 10.
Definition AVAILABILITY_RESERVED : Z := 20.
Definition AVAILABILITY_OK : Z := 100.

(** [sys.maxsize] of a 64-bit CPython. *)
Definition sys_maxsize : Z := 2 ^ 63 - 1.

(** The fields of a [Quota] instance that the availability code reads or
    writes.  [size = None] is an unlimited quota. *)
Record Quota : Type := mkQuota {
  pk : Z;
  subevent : option Z;
  size : option Z;
  cached_availability_state : option Z;
  cached_availability_number : option Z;
  cached_availability_paid_orders : option Z;
  cached_availability_time : option Z
}.

(** What [_availability] returns: an AVAILABILITY_* constant and the number
    of tickets left ([None] for an unlimited quota). *)
Definition Verdict : Type := Z * option Z.

(** What [availability] returns: line 1008 hands out the two nullable
    cached fields, so both components are optional. *)
Definition CachedVerdict : Type := option Z * option Z.

Definition of_verdict (res : Verdict) : CachedVerdict := (Some (fst res), snd res).

(** The four persisted [cached_availability_*] columns of a quota's row. *)
Record Row : Type := mkRow {
  row_state : option Z;
  row_number : option Z;
  row_paid_orders : option Z;
  row_time : option Z
}.

(** The results of the five demand queries of one quota; the voucher and
    the cart query depend on the time they are asked for. *)
Record Demand : Type := mkDemand {
  paid : Z;
  pending : Z;
  blocking : Z -> Z;
  cart : Z -> Z;
  waitlist : Z
}.

Inductive Query : Type :=
| QPaid
| QPending
| QBlocking (now_dt : Z)
| QCart (now_dt : Z)
| QWaiting.

(** The trace: demand queries sent to the database, a marker for each run
    of [_availability], the deletion of the event-wide ['item_quota_cache']
    entry, and the [save] of a quota's cached fields. *)
Inductive Effect : Type :=
| EvQuery (quota : Z) (q : Query)
| EvCalc (quota : Z) (now_dt : Z) (count_waitinglist : bool)
| EvCacheDelete
| EvSave (quota : Z).

(** [clock] lists the successive readings of [django.utils.timezone.now];
    [ticks] counts the readings taken so far. *)
Record World : Type := mkWorld {
  demand : Z -> Demand;
  rows : gmap Z Row;
  clock : nat -> Z;
  ticks : nat;
  log : list Effect
}.

(** The caller-supplied [_cache] dict: verdicts under the quotas' primary
    keys and the flag under the key ['_count_waitinglist']. *)
Record CallCache : Type := mkCallCache {
  entries : gmap Z Verdict;
  flag_entry : option bool
}.

Inductive exn : Type :=
| TypeError (msg : string)
| ValueError (msg : string).

Inductive outcome (A : Type) : Type :=
| Return (a : A)
| Raise (e : exn).
Arguments Return {A} a.
Arguments Raise {A} e.

(** ** The state monad over [World] *)

Definition M (A : Type) : Type := World -> A * World.

Definition ret {A : Type} (a : A) : M A := fun w => (a, w).

Definition bind {A B : Type} (m : M A) (k : A -> M B) : M B :=
  fun w => let '(a, w') := m w in k a w'.

Notation "x <- m ;; k" := (bind m (fun x => k))
  (at level 100, m at next level, right associativity).

Definition set_log (l : list Effect) (w : World) : World :=
  mkWorld (demand w) (rows w) (clock w) (ticks w) l.

Definition emit (e : Effect) : M unit :=
  fun w => (tt, set_log (log w ++ [e]) w).

(** The reading the next call of [now()] returns, and the world after it. *)
Definition wall (w : World) : Z := clock w (ticks w).

Definition tick (w : World) : World :=
  mkWorld (demand w) (rows w) (clock w) (S (ticks w)) (log w).

(** [now()] *)
Definition now : M Z := fun w => (wall w, tick w).

(** [now_dt or now()]: a [datetime] is always truthy. *)
Definition or_now (now_dt : option Z) : M Z :=
  match now_dt with
  | Some t => ret t
  | None => now
  end.

(** ** Demand queries of [class Quota] *)

Definition run_query (self : Quota) (q : Query) (answer : Demand -> Z) : M Z :=
  fun w => (answer (demand w (pk self)),
            set_log (log w ++ [EvQuery (pk self) q]) w).

Definition count_paid_orders (self : Quota) : M Z :=
  run_query self QPaid paid.

Definition count_pending_orders (self : Quota) : M Z :=
  run_query self QPending pending.

Definition count_blocking_vouchers (self : Quota) (now_dt : option Z) : M Z :=
  now_dt <- or_now now_dt ;;
  run_query self (QBlocking now_dt) (fun d => blocking d now_dt).

Definition count_in_cart (self : Quota) (now_dt : option Z) : M Z :=
  now_dt <- or_now now_dt ;;
  run_query self (QCart now_dt) (fun d => cart d now_dt).

Definition count_waiting_list_pending (self : Quota) : M Z :=
  run_query self QWaiting waitlist.

(** ** [Quota._availability] *)

Definition set_paid_orders (v : option Z) (self : Quota) : Quota :=
  mkQuota (pk self) (subevent self) (size self)
          (cached_availability_state self) (cached_availability_number self)
          v (cached_availability_time self).

Definition _availability (self : Quota) (now_dt : option Z)
    (count_waitinglist : bool) : M (Verdict * Quota) :=
  now_dt <- or_now now_dt ;;
  _ <- emit (EvCalc (pk self) now_dt count_waitinglist) ;;
  match size self with
  | None => ret ((AVAILABILITY_OK, None), self)
  | Some size_left =>
    paid_orders <- count_paid_orders self ;;
    let self := set_paid_orders (Some paid_orders) self in
    let size_left := size_left - paid_orders in
    if size_left <=? 0 then ret ((AVAILABILITY_GONE, Some 0), self) else
    pending_orders <- count_pending_orders self ;;
    let size_left := size_left - pending_orders in
    if size_left <=? 0 then ret ((AVAILABILITY_ORDERED, Some 0), self) else
    vouchers <- count_blocking_vouchers self (Some now_dt) ;;
    let size_left := size_left - vouchers in
    if size_left <=? 0 then ret ((AVAILABILITY_RESERVED, Some 0), self) else
    positions <- count_in_cart self (Some now_dt) ;;
    let size_left := size_left - positions in
    if size_left <=? 0 then ret ((AVAILABILITY_RESERVED, Some 0), self) else
    if count_waitinglist then
      waiting <- count_waiting_list_pending self ;;
      let size_left := size_left - waiting in
      if size_left <=? 0 then ret ((AVAILABILITY_RESERVED, Some 0), self)
      else ret ((AVAILABILITY_OK, Some size_left), self)
    else ret ((AVAILABILITY_OK, Some size_left), self)
  end.
Arguments _availability : simpl never.

(** ** [Quota.cache_is_hot], [Quota.availability], [Quota.rebuild_cache] *)

(** 120 seconds, in microseconds. *)
Definition staleness_window : Z := 120 * 1000000.

Definition cache_is_hot (self : Quota) (now_dt : option Z) : M bool :=
  now_dt <- or_now now_dt ;;
  ret match cached_availability_time self with
      | None => false
      | Some t => now_dt - t <? staleness_window
      end.

(** Operations of the [_cache] dict. *)
Definition dict_truthy (c : CallCache) : bool :=
  negb (bool_decide (entries c = ∅)) || bool_decide (flag_entry c <> None).

Definition dict_clear : CallCache := mkCallCache ∅ None.

Definition dict_store (k : Z) (res : Verdict) (count_waitinglist : bool)
    (c : CallCache) : CallCache :=
  mkCallCache (<[k := res]> (entries c)) (Some count_waitinglist).

(** Lines 1010-1011: a non-empty [_cache] filled under the other setting of
    the flag is emptied,
    [if _cache and count_waitinglist is not _cache.get('_count_waitinglist', True)]. *)
Definition flag_checked (count_waitinglist : bool) (_cache : option CallCache)
    : option CallCache :=
  match _cache with
  | Some c =>
    if dict_truthy c
       && negb (eqb count_waitinglist (default true (flag_entry c)))
    then Some dict_clear else Some c
  | None => None
  end.

Definition set_cached (state number time : option Z) (self : Quota) : Quota :=
  mkQuota (pk self) (subevent self) (size self) state number
          (cached_availability_paid_orders self) time.

Definition row_of (self : Quota) : Row :=
  mkRow (cached_availability_state self) (cached_availability_number self)
        (cached_availability_paid_orders self) (cached_availability_time self).

(** [self.save(update_fields=[the four cached fields], clear_cache=False)] *)
Definition save_cached_fields (self : Quota) : M unit :=
  fun w => (tt, mkWorld (demand w) (<[pk self := row_of self]> (rows w))
                        (clock w) (ticks w) (log w ++ [EvSave (pk self)])).

Definition availability (self : Quota) (now_dt : option Z)
    (count_waitinglist : bool) (_cache : option CallCache) (allow_cache : bool)
    : M (CachedVerdict * Quota * option CallCache) :=
  hot <- (if allow_cache then cache_is_hot self None else ret false) ;;
  if allow_cache && hot && count_waitinglist then
    ret ((cached_availability_state self, cached_availability_number self),
         self, _cache)
  else
    let _cache := flag_checked count_waitinglist _cache in
    match _cache ≫= (fun c => entries c !! pk self) with
    | Some cached => ret (of_verdict cached, self, _cache)
    | None =>
      now_dt <- or_now now_dt ;;
      r <- _availability self (Some now_dt) count_waitinglist ;;
      let '(res, self) := r in
      _ <- emit EvCacheDelete ;;
      hot <- (if count_waitinglist then cache_is_hot self (Some now_dt)
              else ret false) ;;
      self <- (if count_waitinglist && negb hot then
                 let self := set_cached (Some (fst res)) (snd res)
                                        (Some now_dt) self in
                 self <- match size self with
                         | None =>
                           paid_orders <- count_paid_orders self ;;
                           ret (set_paid_orders (Some paid_orders) self)
                         | Some _ => ret self
                         end ;;
                 _ <- save_cached_fields self ;;
                 ret self
               else ret self) ;;
      let _cache := dict_store (pk self) res count_waitinglist <$> _cache in
      ret (of_verdict res, self, _cache)
    end.

Definition rebuild_cache (self : Quota) (now_dt : option Z) : M Quota :=
  let self := set_cached None None None self in
  r <- availability self now_dt true None false ;;
  ret (snd (fst r)).

(** ** [Item.check_quotas] and [ItemVariation.check_quotas] *)

(** [set(...)] of model instances: two instances are equal when their
    primary keys are.  The order in which Python iterates over a set is not
    specified; here the first occurrence is kept and the order is that of
    the list, so that the list of the quotas of an item stands for the
    order in which they are asked.  The properties below hold for every
    such list; the order can show in the result, since every quota is
    asked at another reading of the clock. *)
Fixpoint py_set (l : list Quota) : list Quota :=
  match l with
  | [] => []
  | q :: l' => q :: List.filter (fun q' => negb (pk q' =? pk q)) (py_set l')
  end.

(** [check_quotas -= set(ignored_quotas)] *)
Definition set_minus (l ignored : list Quota) : list Quota :=
  List.filter (fun q => negb (existsb (fun i => pk i =? pk q) ignored)) l.

(** [self.quotas.filter(subevent=subevent) if subevent else self.quotas.all()] *)
Definition quotas_for (quotas : list Quota) (sub : option Z) : list Quota :=
  match sub with
  | Some s =>
    List.filter (fun q => bool_decide (subevent q = Some s)) quotas
  | None => quotas
  end.

(** [not subevent]: a model instance is truthy, [None] is not. *)
Definition py_not {A : Type} (o : option A) : bool :=
  match o with
  | Some _ => false
  | None => true
  end.

(** [lambda s: (s[0], s[1] if s[1] is not None else sys.maxsize)] *)
Definition min_key (s : CachedVerdict) : option Z * Z :=
  (fst s, match snd s with Some n => n | None => sys_maxsize end).

(** [a < b] on two such keys, as Python compares tuples: the first
    components that differ decide, and [None] is not ordered against an
    integer; the error names the types in the order compared. *)
Definition key_lt (a b : option Z * Z) : outcome bool :=
  match fst a, fst b with
  | Some x, Some y => Return (if x =? y then snd a <? snd b else x <? y)
  | None, None => Return (snd a <? snd b)
  | Some _, None => Raise (TypeError
             "'<' not supported between instances of 'int' and 'NoneType'")
  | None, Some _ => Raise (TypeError
             "'<' not supported between instances of 'NoneType' and 'int'")
  end.

(** [min(l, key=min_key)]: the first element with the least key. *)
Fixpoint min_from (best : CachedVerdict) (l : list CachedVerdict)
    : outcome CachedVerdict :=
  match l with
  | [] => Return best
  | s :: l' =>
    match key_lt (min_key s) (min_key best) with
    | Return true => min_from s l'
    | Return false => min_from best l'
    | Raise e => Raise e
    end
  end.

Definition py_min (l : list CachedVerdict) : outcome CachedVerdict :=
  match l with
  | [] => Raise (ValueError "min() arg is an empty sequence")
  | s :: l' => min_from s l'
  end.

(** [[q.availability(count_waitinglist=count_waitinglist, _cache=_cache)
      for q in check_quotas]] *)
Fixpoint availability_each (check_quotas : list Quota)
    (count_waitinglist : bool) (_cache : option CallCache)
    : M (list CachedVerdict * option CallCache) :=
  match check_quotas with
  | [] => ret ([], _cache)
  | q :: rest =>
    r <- availability q None count_waitinglist _cache false ;;
    rs <- availability_each rest count_waitinglist (snd r) ;;
    ret (fst (fst r) :: fst rs, snd rs)
  end.

Module Item.

Record t : Type := mk {
  quotas : list Quota;
  _subevent_quotas : option (list Quota);
  event_has_subevents : bool;
  has_variations : bool
}.

Definition check_quotas (self : t) (ignored_quotas : option (list Quota))
    (count_waitinglist : bool) (subevent : option Z)
    (_cache : option CallCache)
    : M (outcome CachedVerdict * option CallCache) :=
  let check_quotas :=
    py_set (default (quotas_for (quotas self) subevent)
                    (_subevent_quotas self)) in
  if py_not subevent && event_has_subevents self then
    ret (Raise (TypeError "You need to supply a subevent."), _cache)
  else
    let check_quotas :=
      match ignored_quotas with
      | Some (i :: l) => set_minus check_quotas (py_set (i :: l))
      | _ => check_quotas
      end in
    match check_quotas with
    | [] => ret (Return (Some AVAILABILITY_OK, Some sys_maxsize), _cache)
    | _ :: _ =>
      if has_variations self then
        ret (Raise (ValueError
               "Do not call this directly on items which have variations but call this on their ItemVariation objects"),
             _cache)
      else
        rs <- availability_each check_quotas count_waitinglist _cache ;;
        ret (py_min (fst rs), snd rs)
    end.

End Item.

Module ItemVariation.

Record t : Type := mk {
  item : Item.t;
  quotas : list Quota;
  _subevent_quotas : option (list Quota)
}.

Definition check_quotas (self : t) (ignored_quotas : option (list Quota))
    (count_waitinglist : bool) (subevent : option Z)
    (_cache : option CallCache)
    : M (outcome CachedVerdict * option CallCache) :=
  let check_quotas :=
    py_set (default (quotas_for (quotas self) subevent)
                    (_subevent_quotas self)) in
  let check_quotas :=
    match ignored_quotas with
    | Some (i :: l) => set_minus check_quotas (py_set (i :: l))
    | _ => check_quotas
    end in
  if py_not subevent && Item.event_has_subevents (item self) then
    ret (Raise (TypeError "You need to supply a subevent."), _cache)
  else
    match check_quotas with
    | [] => ret (Return (Some AVAILABILITY_OK, Some sys_maxsize), _cache)
    | _ :: _ =>
      rs <- availability_each check_quotas count_waitinglist _cache ;;
      ret (py_min (fst rs), snd rs)
    end.

End ItemVariation.

(** ** The calculator of the specification

    Section 4.1 of the specification describes the availability computation
    as a function [compute(capacity, demand)] of the capacity and the
    demand counts.  [compute] follows those words: the demand is subtracted
    in the order paid, pending, blocking vouchers, cart holds, waiting list,
    and the first step that leaves nothing decides the state.  Its second
    component lists the demand queries the steps taken need.
    [_availability_compute] below relates it to the code. *)
Definition compute (capacity : option Z) (d : Demand) (t : Z)
    (count_waitlist : bool) : Verdict * list Query :=
  match capacity with
  | None => ((AVAILABILITY_OK, None), [])
  | Some C =>
    if C - paid d <=? 0 then
      ((AVAILABILITY_GONE, Some 0), [QPaid])
    else if C - paid d - pending d <=? 0 then
      ((AVAILABILITY_ORDERED, Some 0), [QPaid; QPending])
    else if C - paid d - pending d - blocking d t <=? 0 then
      ((AVAILABILITY_RESERVED, Some 0), [QPaid; QPending; QBlocking t])
    else if C - paid d - pending d - blocking d t - cart d t <=? 0 then
      ((AVAILABILITY_RESERVED, Some 0),
       [QPaid; QPending; QBlocking t; QCart t])
    else if count_waitlist then
      if C - paid d - pending d - blocking d t - cart d t - waitlist d <=? 0
      then ((AVAILABILITY_RESERVED, Some 0),
            [QPaid; QPending; QBlocking t; QCart t; QWaiting])
      else ((AVAILABILITY_OK,
             Some (C - paid d - pending d - blocking d t - cart d t
                   - waitlist d)),
            [QPaid; QPending; QBlocking t; QCart t; QWaiting])
    else
      ((AVAILABILITY_OK,
        Some (C - paid d - pending d - blocking d t - cart d t)),
       [QPaid; QPending; QBlocking t; QCart t])
  end.

(** * Properties *)

(** Counts are results of [COUNT] queries and of a sum of values clipped at
    zero: they are never negative. *)
Definition demand_nonneg (d : Demand) (t : Z) : Prop :=
  0 <= paid d /\ 0 <= pending d /\ 0 <= blocking d t /\ 0 <= cart d t /\
  0 <= waitlist d.

(** The trace of one run of [_availability] that issued the queries [qs]. *)
Definition calc_trace (self : Quota) (t : Z) (count_waitinglist : bool)
    (qs : list Query) : list Effect :=
  EvCalc (pk self) t count_waitinglist :: map (EvQuery (pk self)) qs.

(** The in-memory quota after a run of [_availability]: line 1045 stores
    the paid count of a limited quota in [cached_availability_paid_orders]. *)
Definition after_calc (self : Quota) (d : Demand) : Quota :=
  match size self with
  | None => self
  | Some _ => set_paid_orders (Some (paid d)) self
  end.

(** The stored verdict is hot at time [t]: the value of [cache_is_hot]. *)
Definition hot_at (self : Quota) (t : Z) : bool :=
  match cached_availability_time self with
  | None => false
  | Some c => t - c <? staleness_window
  end.

(** The test of line 1007: the call hands out the stored verdict. *)
Definition serves_stored (self : Quota) (count_waitinglist allow_cache : bool)
    (w : World) : bool :=
  allow_cache && hot_at self (wall w) && count_waitinglist.

(** The test of line 1013: the entry of this quota in the caller's [_cache],
    after the flag check. *)
Definition call_cache_entry (self : Quota) (count_waitinglist : bool)
    (_cache : option CallCache) : option Verdict :=
  flag_checked count_waitinglist _cache ≫= (fun c => entries c !! pk self).

(** The time a computing call works with, [now_dt or now()], read after the
    clock reading of line 1007 when that one is taken. *)
Definition calc_time (now_dt : option Z) (allow_cache : bool) (w : World) : Z :=
  match now_dt with
  | Some t => t
  | None => wall (if allow_cache then tick w else w)
  end.

(** The test of line 1019: the call stores its verdict. *)
Definition persists (self : Quota) (count_waitinglist : bool) (t : Z) : bool :=
  count_waitinglist && negb (hot_at self t).

(** The in-memory quota after lines 1020-1024 stored the verdict [res]
    computed at time [t] under the paid count of [d]. *)
Definition stored (self : Quota) (d : Demand) (res : Verdict) (t : Z) : Quota :=
  mkQuota (pk self) (subevent self) (size self)
          (Some (fst res)) (snd res) (Some (paid d)) (Some t).

(** The verdict [_availability] computes for the quota at time [t]. *)
Definition computed (self : Quota) (t : Z) (count_waitinglist : bool)
    (w : World) : Verdict :=
  fst (fst (_availability self (Some t) count_waitinglist w)).

(** The trace of lines 1019-1031 when they store the verdict. *)
Definition store_trace (self : Quota) : list Effect :=
  match size self with
  | None => [EvQuery (pk self) QPaid; EvSave (pk self)]
  | Some _ => [EvSave (pk self)]
  end.

(** The number of runs of [_availability] and the demand queries in a
    trace. *)
Definition calculations (l : list Effect) : nat :=
  length (List.filter (fun e => match e with EvCalc _ _ _ => true | _ => false end) l).

Definition demand_queries (l : list Effect) : list Effect :=
  List.filter (fun e => match e with EvQuery _ _ => true | _ => false end) l.

(** The effects a call added to the trace [before]. *)
Definition added (before after : list Effect) : list Effect :=
  skipn (length before) after.

(** ** Sample inputs

    The inputs of the examples of section 8 of the specification: a quota of
    100 with 30 paid orders and 10 cart holds, one with 80 paid and 15
    pending orders, and an unlimited quota.  The clock advances by one
    second a reading. *)
Definition sample_demand (quota : Z) : Demand :=
  if quota =? 2 then mkDemand 80 15 (fun _ => 0) (fun _ => 0) 0
  else mkDemand 30 0 (fun _ => 0) (fun _ => 10) 5.

Definition sample_world : World :=
  mkWorld sample_demand ∅ (fun n => Z.of_nat n * 1000000) 0 [].

Definition quota_100 : Quota := mkQuota 1 None (Some 100) None None None None.
Definition quota_sold : Quota := mkQuota 2 None (Some 100) None None None None.
Definition quota_unlimited : Quota := mkQuota 3 None None None None None None.

(** ** Statements of the specification that the code does not satisfy *)

(** "For every quota whose capacity is unlimited, availability returns
    (OK, unlimited) regardless of all demand counts, and zero demand-count
    queries are issued", read for [Quota.availability]. *)
Definition unlimited_issues_no_query : Prop :=
  forall self now_dt count_waitinglist _cache allow_cache w,
    size self = None ->
    let r := availability self now_dt count_waitinglist _cache allow_cache w in
    fst (fst (fst r)) = (Some AVAILABILITY_OK, None) /\
    demand_queries (added (log w) (log (snd r))) = [].

(** "availability returns the stored cached verdict without recomputation
    if and only if the caller permits cache use, the cached timestamp is
    within 120 seconds and the request is waitlist-inclusive; in every
    other case a fresh computation is performed." *)
Definition computes_in_every_other_case : Prop :=
  forall self now_dt count_waitinglist _cache allow_cache w,
    let r := availability self now_dt count_waitinglist _cache allow_cache w in
    if serves_stored self count_waitinglist allow_cache w then
      fst (fst (fst r)) =
        (cached_availability_state self, cached_availability_number self) /\
      calculations (added (log w) (log (snd r))) = 0%nat
    else
      calculations (added (log w) (log (snd r))) = 1%nat.

(** A call cache that holds a verdict for quota 1, filled with the waiting
    list counted. *)
Definition sample_call_cache : CallCache :=
  mkCallCache {[ 1 := (AVAILABILITY_OK, Some 7) ]} (Some true).

(** "Every pair of availability calls within the 120-second staleness
    window with no intervening demand changes returns identical verdicts
    and issues, between them, at most one set of demand-count queries":
    all readings of the clock lie within the window, and the second call
    starts from the quota and the world the first one left. *)
Definition within_window (w : World) : Prop :=
  forall i j, Z.abs (clock w i - clock w j) < staleness_window.

Definition two_calls_compute_once : Prop :=
  forall self w count_waitinglist1 count_waitinglist2 allow_cache1 allow_cache2,
    within_window w ->
    let r1 := availability self None count_waitinglist1 None allow_cache1 w in
    let r2 := availability (snd (fst (fst r1))) None count_waitinglist2 None
                           allow_cache2 (snd r1) in
    fst (fst (fst r1)) = fst (fst (fst r2)) /\
    (calculations (added (log w) (log (snd r2))) <= 1)%nat.

(** The sample world with a clock that stands still. *)
Definition still_world : World :=
  mkWorld sample_demand ∅ (fun _ => 0) 0 [].

(** "rebuild_cache followed immediately by availability never serves a
    pre-existing cached value and always triggers a fresh computation":
    whatever the arguments of the call that follows, its verdict is the one
    [rebuild_cache] has just computed, or one it computes itself. *)
Definition rebuilt_never_serves_cached : Prop :=
  forall self now_dt w now_dt' count_waitinglist _cache allow_cache,
    let r := rebuild_cache self now_dt w in
    let r' := availability (fst r) now_dt' count_waitinglist _cache
                           allow_cache (snd r) in
    fst (fst (fst r')) =
      of_verdict (computed self (calc_time now_dt false w) true w) \/
    (fst (fst (fst r')) =
       of_verdict (computed (fst r) (calc_time now_dt' allow_cache (snd r))
                            count_waitinglist (snd r)) /\
     calculations (added (log (snd r)) (log (snd r'))) = 1%nat).

(** ** Combining the verdicts of several quotas *)

(** The quotas [check_quotas] is left with once the ignored ones are
    removed (line 397 of [Item.check_quotas], line 531 of
    [ItemVariation.check_quotas]). *)
Definition quotas_to_check (quotas : list Quota)
    (_subevent_quotas : option (list Quota))
    (ignored_quotas : option (list Quota)) (sub : option Z) : list Quota :=
  let all := py_set (default (quotas_for quotas sub) _subevent_quotas) in
  match ignored_quotas with
  | Some (i :: l) => set_minus all (py_set (i :: l))
  | _ => all
  end.

(** The state of a verdict is an integer, not [None]. *)
Definition has_state (v : CachedVerdict) : Prop := is_Some (fst v).

(** [a] is at most as available as [b]: a lower state, or the same state
    and no more tickets left, an unlimited number counting as
    [sys.maxsize]. *)
Definition at_most_as_available (a b : CachedVerdict) : Prop :=
  match fst a, fst b with
  | Some x, Some y => x < y \/ (x = y /\ snd (min_key a) <= snd (min_key b))
  | _, _ => False
  end.

(** The call cache and the world that the quotas of [before] leave behind
    when each is asked for its availability in turn, as [check_quotas] asks
    them: with the current time, the flag [count_waitinglist], the call
    cache handed on from one to the next, and [allow_cache] left at
    [False]. *)
Definition asked (before : list Quota) (count_waitinglist : bool)
    (_cache : option CallCache) (w : World) : option CallCache * World :=
  fold_left
    (fun st q =>
       let r := availability q None count_waitinglist (fst st) false (snd st) in
       (snd (fst r), snd r))
    before (_cache, w).

(** The verdict [Quota.availability] returns for the quota [q] when it is
    asked after the quotas of [before]. *)
Definition verdict_after (before : list Quota) (q : Quota)
    (count_waitinglist : bool) (_cache : option CallCache) (w : World)
    : CachedVerdict :=
  let st := asked before count_waitinglist _cache w in
  fst (fst (fst (availability q None count_waitinglist (fst st) false (snd st)))).

(** What the result [r] of [check_quotas] over the quotas [check_quotas]
    has to be: unlimited availability, with cache and world untouched, when
    there is no quota; otherwise the verdict [Quota.availability] returns
    for one of the quotas, at most as available as the verdict it returns
    for each of them, every quota being asked once, in turn. *)
Definition least_available (check_quotas : list Quota)
    (count_waitinglist : bool) (_cache : option CallCache) (w : World)
    (r : outcome CachedVerdict * option CallCache * World) : Prop :=
  match check_quotas with
  | [] => r = (Return (Some AVAILABILITY_OK, Some sys_maxsize), _cache, w)
  | _ :: _ =>
    exists v,
      r = (Return v, fst (asked check_quotas count_waitinglist _cache w),
           snd (asked check_quotas count_waitinglist _cache w)) /\
      (exists before q after,
         check_quotas = before ++ q :: after /\
         v = verdict_after before q count_waitinglist _cache w) /\
      (forall before q after,
         check_quotas = before ++ q :: after ->
         at_most_as_available
           v (verdict_after before q count_waitinglist _cache w))
  end.

Definition need_subevent : exn :=
  TypeError "You need to supply a subevent.".

Definition has_variations_error : exn :=
  ValueError
    "Do not call this directly on items which have variations but call this on their ItemVariation objects".

(** A quota that is sold out under [sample_demand], an item in two quotas
    and a variation of it. *)
Definition quota_small : Quota := mkQuota 4 None (Some 10) None None None None.

Definition sample_item : Item.t :=
  Item.mk [quota_100; quota_small] None false false.

Definition sample_variation : ItemVariation.t :=
  ItemVariation.mk sample_item [quota_100; quota_small] None.

(** An item and a variation of an event series, and an item with
    variations. *)
Definition series_item : Item.t :=
  Item.mk [quota_100] None true false.

Definition series_variation : ItemVariation.t :=
  ItemVariation.mk series_item [quota_100] None.

Definition item_with_variations : Item.t :=
  Item.mk [quota_100] None false true.

(** * Further models

    The validators, the orderings and the sale window of the same file. *)

(** A [clean_*] method returns nothing or raises a [ValidationError]; the
    message is the untranslated text. *)
Inductive validation : Type :=
| Valid
| ValidationError (msg : string).

(** One check after the other: the first error is the one raised. *)
Definition and_then (a b : validation) : validation :=
  match a with
  | Valid => b
  | ValidationError msg => ValidationError msg
  end.

(** ** [Item.is_available] and [Item.clean_available] *)

Module ItemSale.

(** The fields of an [Item] that decide whether it is on sale. *)
Record t : Type := mk {
  active : bool;
  available_from : option Z;
  available_until : option Z
}.

Definition is_available (self : t) (now_dt : option Z) : M bool :=
  now_dt <- or_now now_dt ;;
  if negb (active self) then ret false
  else if match available_from self with
          | Some from => from >? now_dt
          | None => false
          end then ret false
  else if match available_until self with
          | Some until => until <? now_dt
          | None => false
          end then ret false
  else ret true.

Definition clean_available (from_date until_date : option Z) : validation :=
  match from_date, until_date with
  | Some from, Some until =>
    if from >? until then
      ValidationError "The item's availability cannot end before it starts."
    else Valid
  | _, _ => Valid
  end.

End ItemSale.

(** ** [ItemCategory]: the sort key and [__lt__] *)

(** [a < b] on two pairs of integers, as Python compares tuples. *)
Definition tuple_lt (a b : Z * Z) : bool :=
  if fst a =? fst b then snd a <? snd b else fst a <? fst b.

Module ItemCategory.

Record t : Type := mk {
  id : Z;
  event : Z;
  position : Z
}.

Definition sortkey (self : t) : Z * Z := (position self, id self).

Definition lt (self other : t) : bool :=
  tuple_lt (sortkey self) (sortkey other).

End ItemCategory.

(** ** [ItemVariation.__lt__] *)

(** The fields of an [ItemVariation] row that the ordering and the quota
    validators read; [variation_item] is the primary key of its item. *)
Record VariationRow : Type := mkVariationRow {
  variation_id : Z;
  variation_item : Z;
  variation_position : Z
}.

Definition ItemVariation_lt (self other : VariationRow) : bool :=
  if variation_position self =? variation_position other then
    variation_id self <? variation_id other
  else variation_position self <? variation_position other.

(** ** [ItemAddOn]: the [clean] methods *)

Module ItemAddOn.

(** [addon_category] is the primary key of the category. *)
Record t : Type := mk {
  pk : Z;
  addon_category : Z;
  min_count : Z;
  max_count : Z
}.

Definition min_count_error : validation :=
  ValidationError
    "The minimum count needs to be equal to or greater than zero.".

Definition max_count_error : validation :=
  ValidationError
    "The maximum count needs to be equal to or greater than zero.".

Definition max_min_count_error : validation :=
  ValidationError
    "The maximum count needs to be greater than the minimum count.".

Definition clean_min_count (min_count : Z) : validation :=
  if min_count <? 0 then min_count_error else Valid.

Definition clean_max_count (max_count : Z) : validation :=
  if max_count <? 0 then max_count_error else Valid.

Definition clean_max_min_count (max_count min_count : Z) : validation :=
  if max_count <? min_count then max_min_count_error else Valid.

Definition clean (self : t) : validation :=
  and_then (clean_min_count (min_count self))
    (and_then (clean_max_count (max_count self))
       (clean_max_min_count (max_count self) (min_count self))).

(** [event] is the primary key of the event and [item], when given, the
    add-ons of the item, [item.addons.all()]; model instances are equal
    when their primary keys are. *)
Definition clean_categories (event : Z) (item : option (list t))
    (addon : option t) (new_category : ItemCategory.t) : validation :=
  if negb (event =? ItemCategory.event new_category) then
    ValidationError
      "The add-on's category must belong to the same event as the item."
  else
    match item with
    | Some addons =>
      if match addon with
         | None => true
         | Some a => negb (addon_category a =? ItemCategory.id new_category)
         end
      then
        if existsb (fun a => addon_category a =? ItemCategory.id new_category)
                   addons
        then ValidationError "The item already has an add-on of this category."
        else Valid
      else Valid
    | None => Valid
    end.

End ItemAddOn.

(** ** [Quota.clean_variations] and [Quota.clean_items] *)

(** The fields of an [Item] row the quota validators read. *)
Record ItemRow : Type := mkItemRow {
  item_id : Z;
  item_event : Z;
  item_has_variations : bool
}.

(** [variation.item not in items] compares primary keys. *)
Fixpoint Quota_clean_variations (items : list ItemRow)
    (variations : list VariationRow) : validation :=
  match variations with
  | [] => Valid
  | variation :: rest =>
    if negb (existsb (fun i => item_id i =? variation_item variation) items)
    then ValidationError
           "All variations must belong to an item contained in the items list."
    else Quota_clean_variations items rest
  end.

Fixpoint Quota_clean_items (event : Z) (items : list ItemRow)
    (variations : list VariationRow) : validation :=
  match items with
  | [] => Valid
  | item :: rest =>
    if negb (event =? item_event item) then
      ValidationError "One or more items do not belong to this event."
    else if item_has_variations item
            && negb (existsb (fun var => variation_item var =? item_id item)
                             variations)
    then ValidationError
           "One or more items has variations but none of these are in the variations list."
    else Quota_clean_items event rest variations
  end.

(** ** [Question]: identifiers, [save] and [clean_answer] *)

(** A cleaned value or a [ValidationError]. *)
Inductive validated (A : Type) : Type :=
| Accepted (a : A)
| Rejected (msg : string).
Arguments Accepted {A} a.
Arguments Rejected {A} msg.

(** The answers [clean_answer] tells apart: [None], a boolean, a string, a
    list of the primary keys posted, a [date] that is not a [datetime], a
    [time], a [datetime].  Dates and times are numbers here.  [AOther] is
    any other value, an [int], a [float] or a [Decimal] for instance, by
    what the method sees of it: its truth value and whether it equals
    [True] (a number is truthy unless it is zero, and [1], [1.0] and
    [Decimal(1)] equal [True]); [id] tells such values apart for the calls
    that leave the file. *)
Inductive answer : Type :=
| ANone
| ABool (b : bool)
| AStr (s : string)
| AList (l : list string)
| ADate (d : Z)
| ATime (t : Z)
| ADateTime (dt : Z)
| AOther (truth equals_true : bool) (id : Z).

(** What [clean_answer] returns: one of the values above, a [Decimal], a
    [QuestionOption] or a list of them (by primary key). *)
Inductive cleaned (decimal : Type) : Type :=
| Plain (a : answer)
| Number (d : decimal)
| Option_ (option_pk : Z)
| Options (option_pks : list Z).
Arguments Plain {decimal} a.
Arguments Number {decimal} d.
Arguments Option_ {decimal} option_pk.
Arguments Options {decimal} option_pks.

(** The truth value of an answer ([not answer] is its negation). *)
Definition truthy (a : answer) : bool :=
  match a with
  | ANone => false
  | ABool b => b
  | AStr s => negb (String.eqb s "")
  | AList l => match l with [] => false | _ :: _ => true end
  | ADate _ | ATime _ | ADateTime _ => true
  | AOther truth _ _ => truth
  end.

(** [answer in ("true", "True", True)] *)
Definition is_true (a : answer) : bool :=
  match a with
  | AStr s => String.eqb s "true" || String.eqb s "True"
  | ABool b => b
  | AOther _ equals_true _ => equals_true
  | _ => false
  end.

(** [s.split(sep)] for a separator of one character. *)
Fixpoint split (sep : Ascii.ascii) (s : string) : list string :=
  match s with
  | EmptyString => [EmptyString]
  | String c rest =>
    if Ascii.eqb c sep then EmptyString :: split sep rest
    else match split sep rest with
         | piece :: pieces => String c piece :: pieces
         | [] => [String c EmptyString]
         end
  end.

Module Question.

Definition TYPE_NUMBER : string := "N".
Definition TYPE_STRING : string := "S".
Definition TYPE_TEXT : string := "T".
Definition TYPE_BOOLEAN : string := "B".
Definition TYPE_CHOICE : string := "C".
Definition TYPE_CHOICE_MULTIPLE : string := "M".
Definition TYPE_FILE : string := "F".
Definition TYPE_DATE : string := "D".
Definition TYPE_TIME : string := "H".
Definition TYPE_DATETIME : string := "W".

(** A question; [pk] is [None] until it is saved. *)
Record t : Type := mk {
  pk : option Z;
  event : Z;
  identifier : string;
  type : string;
  required : bool
}.

(** [objects] is the table [Question.objects]. *)
Definition _clean_identifier (objects : list t) (event_ : Z) (code : string)
    (instance : option t) : validation :=
  let qs :=
    List.filter (fun q => (event q =? event_)
                          && bool_decide (identifier q = code)) objects in
  let qs :=
    match instance with
    | Some i => List.filter (fun q => negb (bool_decide (pk q = pk i))) qs
    | None => qs
    end in
  match qs with
  | _ :: _ =>
    ValidationError "This identifier is already used for a different question."
  | [] => Valid
  end.

Definition clean_identifier (objects : list t) (self : t) (code : string)
    : validation :=
  _clean_identifier objects (event self) code (Some self).

(** [Question.objects.filter(event=event, identifier=code).exists()] *)
Definition identifier_exists (objects : list t) (event_ : Z) (code : string)
    : bool :=
  existsb (fun q => (event q =? event_) && bool_decide (identifier q = code))
          objects.

Definition with_identifier (code : string) (self : t) : t :=
  mk (pk self) (event self) code (type self) (required self).

(** The loop of [save]: [random n] is the [n]-th string that
    [get_random_string(length=8, allowed_chars=charset)] returns; the loop
    draws until a string is no identifier of a question of the event.
    [fuel] bounds the number of draws. *)
Fixpoint draw_identifier (fuel : nat) (objects : list t) (event_ : Z)
    (random : nat -> string) (n : nat) : option (string * nat) :=
  match fuel with
  | O => None
  | S fuel' =>
    let code := random n in
    if identifier_exists objects event_ code
    then draw_identifier fuel' objects event_ random (S n)
    else Some (code, S n)
  end.

(** [save]: [super_save] is the [save] of the base class, which writes the
    row; the result is the question, the table and the number of strings
    drawn so far, and whether the cache of the event was cleared. *)
Definition save (super_save : t -> list t -> list t) (fuel : nat)
    (objects : list t) (random : nat -> string) (n : nat) (self : t)
    : option (t * list t * nat * bool) :=
  match (if String.eqb (identifier self) "" then
           draw_identifier fuel objects (event self) random n
         else Some (identifier self, n)) with
  | Some (code, n') =>
    let self := with_identifier code self in
    Some (self, super_save self objects, n', true)
  | None => None
  end.

Section CleanAnswer.

(** The calls that leave the file: [Decimal] and its constructor applied to
    [str(formats.sanitize_separators(answer)).strip()], the lookups in
    [self.options], and the parsers of [dateutil] (the last one followed by
    [make_aware] for a naive result).  Each returns [None] where the call
    raises an exception the method catches. *)
Variable decimal : Type.
Variable parse_decimal : answer -> option decimal.
Variable options_get : answer -> option Z.
Variable options_filter : list string -> option (list Z).
Variable options_filter_value : answer -> option (list Z).
Variable parse_date : answer -> option Z.
Variable parse_time : answer -> option Z.
Variable parse_datetime : answer -> option Z.

Definition required_error : validated (cleaned decimal) :=
  Rejected "An answer to this question is required to proceed.".

Definition clean_answer (self : t) (answer_ : answer)
    : validated (cleaned decimal) :=
  if required self
     && (negb (truthy answer_)
         || (String.eqb (type self) TYPE_BOOLEAN && negb (is_true answer_)))
  then required_error
  else if negb (truthy answer_) then
    if String.eqb (type self) TYPE_BOOLEAN then Accepted (Plain (ABool false))
    else Accepted (Plain ANone)
  else if String.eqb (type self) TYPE_CHOICE then
    match options_get answer_ with
    | Some o => Accepted (Option_ o)
    | None => Rejected "Invalid option selected."
    end
  else if String.eqb (type self) TYPE_CHOICE_MULTIPLE then
    match (match answer_ with
           | AStr s => options_filter (split ","%char s)
           | _ => options_filter_value answer_
           end) with
    | Some l => Accepted (Options l)
    | None => Rejected "Invalid option selected."
    end
  else if String.eqb (type self) TYPE_BOOLEAN then
    Accepted (Plain (ABool (is_true answer_)))
  else if String.eqb (type self) TYPE_NUMBER then
    match parse_decimal answer_ with
    | Some d => Accepted (Number d)
    | None => Rejected "Invalid number input."
    end
  else if String.eqb (type self) TYPE_DATE then
    match answer_ with
    | ADate _ | ADateTime _ => Accepted (Plain answer_)
    | _ =>
      match parse_date answer_ with
      | Some d => Accepted (Plain (ADate d))
      | None => Rejected "Invalid date input."
      end
    end
  else if String.eqb (type self) TYPE_TIME then
    match answer_ with
    | ATime _ => Accepted (Plain answer_)
    | _ =>
      match parse_time answer_ with
      | Some d => Accepted (Plain (ATime d))
      | None => Rejected "Invalid time input."
      end
    end
  else if String.eqb (type self) TYPE_DATETIME && truthy answer_ then
    match answer_ with
    | ADateTime _ => Accepted (Plain answer_)
    | _ =>
      match parse_datetime answer_ with
      | Some d => Accepted (Plain (ADateTime d))
      | None => Rejected "Invalid datetime input."
      end
    end
  else Accepted (Plain answer_).

End CleanAnswer.

End Question.

(** ** Notions the further properties are stated with *)

(** The pairs a table of questions must not repeat. *)
Definition question_key (q : Question.t) : Z * string :=
  (Question.event q, Question.identifier q).

(** No two questions of one event share an identifier. *)
Definition unique_identifiers (objects : list Question.t) : Prop :=
  List.NoDup (map question_key objects).

(** The demand of [d'] is at least that of [d] at time [t]. *)
Definition demand_le (d d' : Demand) (t : Z) : Prop :=
  paid d <= paid d' /\ pending d <= pending d' /\
  blocking d t <= blocking d' t /\ cart d t <= cart d' t /\
  waitlist d <= waitlist d'.

(** The world [w] with the demand of every quota replaced. *)
Definition with_demand (demand' : Z -> Demand) (w : World) : World :=
  mkWorld demand' (rows w) (clock w) (ticks w) (log w).

(** The quota [self] with another capacity. *)
Definition with_size (size' : option Z) (self : Quota) : Quota :=
  mkQuota (pk self) (subevent self) size'
          (cached_availability_state self) (cached_availability_number self)
          (cached_availability_paid_orders self)
          (cached_availability_time self).

(** The quota an effect concerns; the deletion of the event's cache entry
    concerns none. *)
Definition quota_of (e : Effect) : option Z :=
  match e with
  | EvQuery q _ | EvCalc q _ _ | EvSave q => Some q
  | EvCacheDelete => None
  end.

(** The effect [e] concerns no quota but the one with primary key [k]. *)
Definition about (k : Z) (e : Effect) : Prop :=
  forall q, quota_of e = Some q -> q = k.

(** The deletions of the ['item_quota_cache'] entry in a trace. *)
Definition cache_deletes (l : list Effect) : nat :=
  length (List.filter (fun e => match e with
                                | EvCacheDelete => true
                                | _ => false
                                end) l).

(** The flag check of lines 1010-1011 leaves the call cache [c] alone. *)
Definition settled (count_waitinglist : bool) (c : CallCache) : Prop :=
  flag_checked count_waitinglist (Some c) = Some c.

(** The demand counts that depend on the time asked for, the blocking
    vouchers and the cart positions not yet expired, are the same at every
    time. *)
Definition time_independent (d : Z -> Demand) : Prop :=
  forall k t t', blocking (d k) t = blocking (d k) t' /\
                 cart (d k) t = cart (d k) t'.

(** Two outcomes of [check_quotas] agree: the same exception, or verdicts
    with the same key (state, number with [None] read as [sys.maxsize]). *)
Definition same_key (o o' : outcome CachedVerdict) : Prop :=
  match o, o' with
  | Return v, Return v' => min_key v = min_key v'
  | Raise e, Raise e' => e = e'
  | _, _ => False
  end.

(** A world in which a hundred cart positions on quota 1 appear one second
    after the start of the clock. *)
Definition rush_world : World :=
  mkWorld (fun k => mkDemand 0 0 (fun _ => 0)
                      (fun t => if (t <? 1000000) || negb (k =? 1) then 0
                                else 100)
                      0)
          ∅ (fun n => Z.of_nat n * 1000000) 0 [].

(** A sale window and add-ons for the worked examples. *)
Definition sample_sale : ItemSale.t := ItemSale.mk true (Some 10) (Some 20).

Definition sample_category : ItemCategory.t := ItemCategory.mk 7 1 0.

Definition sample_addons : list ItemAddOn.t :=
  [ItemAddOn.mk 1 5 0 1; ItemAddOn.mk 2 6 0 2].

(** Strings for [get_random_string] to return: "AGE" first, then "R1",
    "R2", ... *)
Definition sample_random (n : nat) : string :=
  match n with
  | O => "AGE"
  | S _ => String "R" (String (Ascii.ascii_of_nat (48 + n)) EmptyString)
  end.

Definition sample_questions : list Question.t :=
  [Question.mk (Some 1) 1 "AGE" "N" true;
   Question.mk (Some 2) 1 "DIET" "S" false].

Lemma set_log_eq (w : World) (l l' : list Effect) :
  l = l' -> set_log l w = set_log l' w.
Proof. now intros ->. Qed.

(** [_availability] refines [compute]: same verdict, and exactly the
    queries [compute] lists, in that order, appended to the trace. *)
Lemma _availability_compute (self : Quota) (t : Z) (count_waitinglist : bool)
    (w : World) :
  let d := demand w (pk self) in
  let c := compute (size self) d t count_waitinglist in
  _availability self (Some t) count_waitinglist w =
  ((fst c, after_calc self d),
   set_log (log w ++ calc_trace self t count_waitinglist (snd c)) w).
Proof.
  cbn zeta.
  unfold _availability, compute, after_calc, calc_trace, count_paid_orders,
    count_pending_orders, count_blocking_vouchers, count_in_cart,
    count_waiting_list_pending.
  unfold bind, ret, emit, run_query, or_now, set_log.
  destruct (size self) as [C|]; cbn; [|reflexivity].
  assert (flat : forall (l : list Effect) x y, (l ++ x) ++ y = l ++ x ++ y)
    by (intros; now rewrite <- app_assoc).
  generalize (eq_refl (demand w (pk self))).
  generalize (demand w (pk self)) at 1 3 as d; intros d Hd.
  repeat rewrite <- Hd.
  destruct (C - paid d <=? 0); cbn; rewrite <- ?Hd, ?flat; [reflexivity|].
  destruct (C - paid d - pending d <=? 0); cbn; rewrite <- ?Hd, ?flat;
    [reflexivity|].
  destruct (C - paid d - pending d - blocking d t <=? 0); cbn;
    rewrite <- ?Hd, ?flat; [reflexivity|].
  destruct (C - paid d - pending d - blocking d t - cart d t <=? 0); cbn;
    rewrite <- ?Hd, ?flat; [reflexivity|].
  destruct count_waitinglist; cbn; rewrite <- ?Hd, ?flat; [|reflexivity].
  destruct (C - paid d - pending d - blocking d t - cart d t - waitlist d
            <=? 0); cbn; rewrite <- ?Hd, ?flat; reflexivity.
Qed.

(** Without a time, [_availability] reads the clock first. *)
Lemma _availability_now (self : Quota) (count_waitinglist : bool) (w : World) :
  _availability self None count_waitinglist w =
  _availability self (Some (wall w)) count_waitinglist (tick w).
Proof. reflexivity. Qed.

Lemma computed_compute (self : Quota) (t : Z) (count_waitinglist : bool)
    (w : World) :
  computed self t count_waitinglist w =
  fst (compute (size self) (demand w (pk self)) t count_waitinglist).
Proof. unfold computed. now rewrite _availability_compute. Qed.

Lemma cache_is_hot_at (self : Quota) (t : Z) (w : World) :
  cache_is_hot self (Some t) w = (hot_at self t, w).
Proof. reflexivity. Qed.

Lemma cache_is_hot_wall (self : Quota) (w : World) :
  cache_is_hot self None w = (hot_at self (wall w), tick w).
Proof. reflexivity. Qed.

(** The path of line 1008. *)
Lemma availability_stored (self : Quota) (now_dt : option Z)
    (count_waitinglist allow_cache : bool) (_cache : option CallCache)
    (w : World) :
  serves_stored self count_waitinglist allow_cache w = true ->
  availability self now_dt count_waitinglist _cache allow_cache w =
  ((cached_availability_state self, cached_availability_number self,
    self, _cache), tick w).
Proof.
  unfold serves_stored, availability, bind. intros H.
  destruct allow_cache; [|discriminate].
  rewrite cache_is_hot_wall. cbn in H |- *.
  destruct (hot_at self (wall w)), count_waitinglist; try discriminate.
  reflexivity.
Qed.

(** The path of line 1014. *)
Lemma availability_call_cache (self : Quota) (now_dt : option Z)
    (count_waitinglist allow_cache : bool) (_cache : option CallCache)
    (w : World) (cached : Verdict) :
  serves_stored self count_waitinglist allow_cache w = false ->
  call_cache_entry self count_waitinglist _cache = Some cached ->
  availability self now_dt count_waitinglist _cache allow_cache w =
  ((of_verdict cached, self, flag_checked count_waitinglist _cache),
   if allow_cache then tick w else w).
Proof.
  unfold serves_stored, call_cache_entry, availability, bind. intros H E.
  destruct allow_cache.
  - rewrite cache_is_hot_wall. cbn in H |- *. rewrite H, E. reflexivity.
  - cbn. rewrite E. reflexivity.
Qed.

(** The path of lines 1015-1036: the computation. *)
Lemma availability_fresh (self : Quota) (now_dt : option Z)
    (count_waitinglist allow_cache : bool) (_cache : option CallCache)
    (w : World) :
  serves_stored self count_waitinglist allow_cache w = false ->
  call_cache_entry self count_waitinglist _cache = None ->
  let d := demand w (pk self) in
  let t := calc_time now_dt allow_cache w in
  let c := compute (size self) d t count_waitinglist in
  let w1 := if allow_cache then tick w else w in
  let w2 := match now_dt with Some _ => w1 | None => tick w1 end in
  availability self now_dt count_waitinglist _cache allow_cache w =
  if persists self count_waitinglist t then
    ((of_verdict (fst c), stored self d (fst c) t,
      dict_store (pk self) (fst c) count_waitinglist
        <$> flag_checked count_waitinglist _cache),
     mkWorld (demand w) (<[pk self := row_of (stored self d (fst c) t)]> (rows w))
             (clock w) (ticks w2)
             (log w ++ calc_trace self t count_waitinglist (snd c)
                    ++ EvCacheDelete :: store_trace self))
  else
    ((of_verdict (fst c), after_calc self d,
      dict_store (pk self) (fst c) count_waitinglist
        <$> flag_checked count_waitinglist _cache),
     mkWorld (demand w) (rows w) (clock w) (ticks w2)
             (log w ++ calc_trace self t count_waitinglist (snd c)
                    ++ [EvCacheDelete])).
Proof.
  unfold serves_stored, call_cache_entry, calc_time, persists.
  intros H E. cbn zeta.
  assert (Hcalc : hot_at (after_calc self (demand w (pk self)))
                  = hot_at self)
    by (unfold hot_at, after_calc; now destruct (size self)).
  assert (Hpk : pk (after_calc self (demand w (pk self))) = pk self)
    by (unfold after_calc; now destruct (size self)).
  unfold availability, bind.
  destruct allow_cache; cbn [andb] in H;
    rewrite ?cache_is_hot_wall; cbn [ret andb]; rewrite ?H, E;
    destruct now_dt as [t|]; cbn [or_now ret]; unfold now;
    rewrite _availability_compute; cbn [demand log fst snd tick];
    unfold emit; cbn [set_log log demand rows clock ticks];
    match goal with
    | |- context [compute ?a ?b ?c ?d] => generalize (compute a b c d)
    end; intros [res qs]; cbn [fst snd];
    (destruct count_waitinglist; cbn [andb negb];
     [rewrite cache_is_hot_at, Hcalc;
      match goal with
      | |- context [negb (hot_at self ?t)] => destruct (hot_at self t)
      end;
      cbn [negb]|]);
    unfold ret, save_cached_fields, count_paid_orders, run_query, store_trace,
      stored, set_log, set_cached, set_paid_orders, after_calc, calc_trace,
      tick;
    destruct (size self) eqn:Es; cbn; rewrite ?Es; cbn;
    rewrite <- ?app_assoc; reflexivity.
Qed.

(** ** The availability computation *)

Section Calculator.

Variables (self : Quota) (w : World) (t C : Z) (count_waitinglist : bool).
Hypothesis finite : size self = Some C.
Hypothesis counts : demand_nonneg (demand w (pk self)) t.

(** C1.  For a limited quota of capacity [C] and non-negative demand
    counts paid [p], pending [q], blocking vouchers [b], cart holds [c] and
    waiting list [wl] (counted as 0 when [count_waitinglist] is off),
    [_availability] subtracts the demand in that order and stops at the
    first step that leaves nothing: [(GONE, 0)] if [C <= p], after the paid
    query only; [(ORDERED, 0)] if [p < C <= p + q]; [(RESERVED, 0)] if
    [p + q < C <= p + q + b], likewise for [c], and for the waiting list
    when the flag is on; otherwise [(OK, C - p - q - b - c - wl)], which is
    positive.  In every case the queries sent are those of the steps
    taken, in the fixed order. *)
Theorem availability_priority_order :
  let p := paid (demand w (pk self)) in
  let q := pending (demand w (pk self)) in
  let b := blocking (demand w (pk self)) t in
  let c := cart (demand w (pk self)) t in
  let wl := if count_waitinglist then waitlist (demand w (pk self)) else 0 in
  let r := _availability self (Some t) count_waitinglist w in
  let issued qs :=
    log (snd r) = log w ++ calc_trace self t count_waitinglist qs in
  (C <= p -> fst (fst r) = (AVAILABILITY_GONE, Some 0) /\ issued [QPaid]) /\
  (p < C <= p + q ->
     fst (fst r) = (AVAILABILITY_ORDERED, Some 0) /\
     issued [QPaid; QPending]) /\
  (p + q < C <= p + q + b ->
     fst (fst r) = (AVAILABILITY_RESERVED, Some 0) /\
     issued [QPaid; QPending; QBlocking t]) /\
  (p + q + b < C <= p + q + b + c ->
     fst (fst r) = (AVAILABILITY_RESERVED, Some 0) /\
     issued [QPaid; QPending; QBlocking t; QCart t]) /\
  (count_waitinglist = true -> p + q + b + c < C <= p + q + b + c + wl ->
     fst (fst r) = (AVAILABILITY_RESERVED, Some 0) /\
     issued [QPaid; QPending; QBlocking t; QCart t; QWaiting]) /\
  (p + q + b + c + wl < C ->
     fst (fst r) = (AVAILABILITY_OK, Some (C - p - q - b - c - wl)) /\
     0 < C - p - q - b - c - wl /\
     issued ([QPaid; QPending; QBlocking t; QCart t]
             ++ if count_waitinglist then [QWaiting] else [])).
Proof.
  destruct counts as (Hp & Hq & Hb & Hc & Hw).
  intros p q b c wl r issued. subst issued r; cbn beta.
  rewrite _availability_compute; cbn [fst snd log set_log].
  unfold compute; rewrite finite.
  fold p q b c in Hp, Hq, Hb, Hc |- *.
  subst wl; destruct count_waitinglist; cbn [app];
    repeat split; intros; try discriminate;
    repeat match goal with
           | |- context [if ?x <=? ?y then _ else _] =>
             destruct (Z.leb_spec x y); try lia
           end;
    cbn; try reflexivity; do 2 f_equal; lia.
Qed.

End Calculator.

(** The first example of section 8: 30 paid orders and 10 cart holds leave
    60 of a capacity of 100 when the waiting list is not counted. *)
Lemma availability_priority_order_witness :
  fst (fst (_availability quota_100 (Some 0) false sample_world))
  = (AVAILABILITY_OK, Some 60).
Proof.
  assert (counts : demand_nonneg (demand sample_world (pk quota_100)) 0)
    by (cbv; intuition discriminate).
  destruct (availability_priority_order quota_100 sample_world 0 100 false
              eq_refl counts) as (_ & _ & _ & _ & _ & ok).
  apply ok. reflexivity.
Defined.

(** 80 paid and 15 pending orders leave 5 of a capacity of 100. *)
Example availability_pending_example :
  fst (fst (_availability quota_sold (Some 0) false sample_world))
  = (AVAILABILITY_OK, Some 5).
Proof. reflexivity. Qed.

(** The number a limited quota has left never exceeds its capacity. *)
Lemma computed_count_bounded (C : Z) (d : Demand) (t : Z)
    (count_waitlist : bool) (n : Z) :
  demand_nonneg d t ->
  snd (fst (compute (Some C) d t count_waitlist)) = Some n ->
  0 <= n <= Z.max C 0.
Proof.
  intros (Hp & Hq & Hb & Hc & Hw). unfold compute.
  repeat match goal with
         | |- context [if ?x <=? ?y then _ else _] =>
           destruct (Z.leb_spec x y)
         | |- context [if count_waitlist then _ else _] =>
           destruct count_waitlist
         end; cbn [fst snd]; intros [= <-]; lia.
Qed.

(** ** Unlimited quotas *)

Lemma added_app (l l' : list Effect) : added l (l ++ l') = l'.
Proof.
  unfold added. rewrite skipn_app, Nat.sub_diag, skipn_all. reflexivity.
Qed.

Lemma added_refl (l : list Effect) : added l l = [].
Proof. unfold added. apply skipn_all. Qed.

(** An unlimited quota, asked with the default arguments, sends the paid
    orders query. *)
Lemma unlimited_issues_paid_query : ~ unlimited_issues_no_query.
Proof.
  intros claim.
  destruct (claim quota_unlimited None true None false sample_world eq_refl)
    as [_ none].
  vm_compute in none. discriminate none.
Qed.

(** C2, amended.  For an unlimited quota ([size] is [None]) the computation
    [_availability] returns [(OK, None)] whatever the demand counts and
    sends no demand query.  [availability], whenever it computes (it hands
    out neither the hot stored verdict nor an entry of the caller's
    [_cache]), returns [(OK, None)] as well; the only demand query it then
    sends is the paid orders count of line 1024, sent exactly when it
    stores the verdict, that is when the call counts the waiting list and
    the stored verdict is not hot. *)
Theorem unlimited_availability (self : Quota) (now_dt : option Z)
    (count_waitinglist allow_cache : bool) (_cache : option CallCache)
    (w : World) :
  size self = None ->
  (let r := _availability self now_dt count_waitinglist w in
   fst (fst r) = (AVAILABILITY_OK, None) /\
   demand_queries (added (log w) (log (snd r))) = []) /\
  (serves_stored self count_waitinglist allow_cache w = false ->
   call_cache_entry self count_waitinglist _cache = None ->
   let r := availability self now_dt count_waitinglist _cache allow_cache w in
   fst (fst (fst r)) = (Some AVAILABILITY_OK, None) /\
   demand_queries (added (log w) (log (snd r))) =
   if persists self count_waitinglist (calc_time now_dt allow_cache w)
   then [EvQuery (pk self) QPaid] else []).
Proof.
  intros unlimited. split.
  - destruct now_dt as [t|]; rewrite ?_availability_now;
      rewrite _availability_compute; unfold compute; rewrite unlimited;
      cbn [fst snd set_log log tick]; rewrite added_app; auto.
  - intros not_stored not_cached. cbn zeta.
    rewrite availability_fresh by assumption. cbn zeta.
    unfold store_trace, compute. rewrite unlimited.
    destruct (persists self count_waitinglist _); cbn [fst snd log];
      rewrite added_app; auto.
Qed.

Lemma unlimited_availability_witness :
  fst (fst (fst (availability quota_unlimited None true None false
                   sample_world)))
  = (Some AVAILABILITY_OK, None).
Proof.
  apply (unlimited_availability quota_unlimited None true false None
           sample_world eq_refl); reflexivity.
Defined.

(** ** The waiting list flag *)

(** C8.  For a limited quota and fixed demand counts, [_availability]
    without the waiting list never leaves a smaller number than with it;
    and for every quota, without the waiting list the queries sent do not
    include the waiting list query. *)
Theorem waitlist_flag_monotone (self : Quota) (w : World) (t : Z) :
  let off := _availability self (Some t) false w in
  let on := _availability self (Some t) true w in
  (forall C, size self = Some C -> 0 <= waitlist (demand w (pk self)) ->
   exists n_off n_on,
     snd (fst (fst off)) = Some n_off /\ snd (fst (fst on)) = Some n_on /\
     n_on <= n_off) /\
  (exists qs, added (log w) (log (snd off)) = calc_trace self t false qs /\
              ~ In QWaiting qs).
Proof.
  cbn zeta.
  rewrite !_availability_compute. cbn [fst snd set_log log].
  rewrite added_app. unfold compute.
  set (d := demand w (pk self)) in *.
  split.
  - intros C -> nonneg.
    repeat match goal with
           | |- context [if ?x <=? ?y then _ else _] =>
             destruct (Z.leb_spec x y); try lia
           end; cbn [fst snd]; do 2 eexists; repeat split; lia.
  - eexists; split; [reflexivity|].
    destruct (size self) as [C|]; [|cbn; tauto].
    repeat match goal with
           | |- context [if ?x <=? ?y then _ else _] => destruct (x <=? y)
           end; cbn; intuition discriminate.
Qed.

Lemma waitlist_flag_monotone_witness :
  exists n_off n_on,
    snd (fst (fst (_availability quota_100 (Some 0) false sample_world)))
    = Some n_off /\
    snd (fst (fst (_availability quota_100 (Some 0) true sample_world)))
    = Some n_on /\
    n_on <= n_off.
Proof.
  apply (waitlist_flag_monotone quota_100 sample_world 0) with (C := 100).
  - reflexivity.
  - cbv. discriminate.
Defined.

(** ** The stored verdict *)

Lemma calculations_calc_trace (self : Quota) (t : Z) (b : bool)
    (qs : list Query) (rest : list Effect) :
  calculations (calc_trace self t b qs ++ rest) = S (calculations rest).
Proof.
  unfold calculations, calc_trace. cbn [app List.filter length].
  rewrite List.filter_app, length_app.
  replace (List.filter _ (map (EvQuery (pk self)) qs)) with (@nil Effect)
    by (induction qs; auto).
  reflexivity.
Qed.

Lemma hot_at_spec (self : Quota) (t : Z) :
  hot_at self t = true <->
  exists c, cached_availability_time self = Some c /\ t - c < 120 * 1000000.
Proof.
  unfold hot_at, staleness_window.
  destruct (cached_availability_time self) as [c|].
  - rewrite Z.ltb_lt. split; [eauto|]. now intros (? & [= <-] & ?).
  - split; [discriminate|]. now intros (? & [=] & _).
Qed.

(** A call whose [_cache] holds the quota's verdict computes nothing. *)
Lemma call_cache_serves_without_computing : ~ computes_in_every_other_case.
Proof.
  intros claim.
  specialize (claim quota_100 None true (Some sample_call_cache) false
                sample_world).
  vm_compute in claim. discriminate claim.
Qed.

(** The three ways [availability] returns: the stored verdict (line 1008),
    an entry of the call cache (line 1014), or a computed verdict. *)
Lemma availability_paths (self : Quota) (now_dt : option Z)
    (count_waitinglist allow_cache : bool) (_cache : option CallCache)
    (w : World) :
  let r := availability self now_dt count_waitinglist _cache allow_cache w in
  match serves_stored self count_waitinglist allow_cache w,
        call_cache_entry self count_waitinglist _cache with
  | true, _ =>
    fst (fst (fst r)) =
      (cached_availability_state self, cached_availability_number self) /\
    added (log w) (log (snd r)) = []
  | false, Some cached =>
    fst (fst (fst r)) = of_verdict cached /\
    added (log w) (log (snd r)) = []
  | false, None =>
    fst (fst (fst r)) =
      of_verdict (computed self (calc_time now_dt allow_cache w)
                           count_waitinglist w) /\
    calculations (added (log w) (log (snd r))) = 1%nat
  end.
Proof.
  cbn zeta.
  destruct (serves_stored self count_waitinglist allow_cache w) eqn:stored_;
    [|destruct (call_cache_entry self count_waitinglist _cache) eqn:entry].
  - rewrite availability_stored by assumption. cbn. now rewrite added_refl.
  - erewrite availability_call_cache by eassumption.
    destruct allow_cache; cbn; now rewrite added_refl.
  - rewrite availability_fresh by assumption. cbn zeta.
    rewrite computed_compute.
    destruct (persists self count_waitinglist _); cbn [fst snd log];
      rewrite added_app; (split; [reflexivity|]);
      rewrite calculations_calc_trace; unfold calculations, store_trace;
      destruct (size self); reflexivity.
Qed.

(** C4, amended.  [availability] hands out the stored verdict, computing
    nothing, exactly when the caller allows it ([allow_cache]), the stored
    timestamp is less than 120 seconds before the clock reading and the
    call counts the waiting list.  In every other case it computes afresh,
    unless the caller's [_cache], after the flag check, holds a verdict for
    the quota: that verdict is then returned and nothing is computed. *)
Theorem availability_cache_use (self : Quota) (now_dt : option Z)
    (count_waitinglist allow_cache : bool) (_cache : option CallCache)
    (w : World) :
  (serves_stored self count_waitinglist allow_cache w = true <->
   allow_cache = true /\ count_waitinglist = true /\
   exists c, cached_availability_time self = Some c /\
             wall w - c < 120 * 1000000) /\
  let r := availability self now_dt count_waitinglist _cache allow_cache w in
  match serves_stored self count_waitinglist allow_cache w,
        call_cache_entry self count_waitinglist _cache with
  | true, _ =>
    fst (fst (fst r)) =
      (cached_availability_state self, cached_availability_number self) /\
    added (log w) (log (snd r)) = []
  | false, Some cached =>
    fst (fst (fst r)) = of_verdict cached /\
    added (log w) (log (snd r)) = []
  | false, None =>
    fst (fst (fst r)) =
      of_verdict (computed self (calc_time now_dt allow_cache w)
                           count_waitinglist w) /\
    calculations (added (log w) (log (snd r))) = 1%nat
  end.
Proof.
  split.
  - unfold serves_stored. rewrite !andb_true_iff, hot_at_spec. tauto.
  - apply availability_paths.
Qed.

(** C5.  A call of [availability] that computes writes the computed state,
    number and timestamp into the quota's row, together with the paid
    orders count (queried for this purpose when the quota is unlimited),
    exactly when it counts the waiting list and the stored verdict is not
    hot at the time of the computation.  In every other case, and in calls
    that do not compute, the row is left as it was, and so are the state,
    number and timestamp held in memory. *)
Theorem availability_persistence (self : Quota) (now_dt : option Z)
    (count_waitinglist allow_cache : bool) (_cache : option CallCache)
    (w : World) :
  let r := availability self now_dt count_waitinglist _cache allow_cache w in
  let self' := snd (fst (fst r)) in
  let d := demand w (pk self) in
  let t := calc_time now_dt allow_cache w in
  let res := computed self t count_waitinglist w in
  let miss := negb (serves_stored self count_waitinglist allow_cache w)
              && bool_decide (call_cache_entry self count_waitinglist _cache
                              = None) in
  if miss && count_waitinglist && negb (hot_at self t) then
    rows (snd r) =
      <[pk self := mkRow (Some (fst res)) (snd res) (Some (paid d)) (Some t)]>
        (rows w) /\
    row_of self' = mkRow (Some (fst res)) (snd res) (Some (paid d)) (Some t) /\
    (size self = None ->
     demand_queries (added (log w) (log (snd r))) = [EvQuery (pk self) QPaid])
  else
    rows (snd r) = rows w /\
    cached_availability_state self' = cached_availability_state self /\
    cached_availability_number self' = cached_availability_number self /\
    cached_availability_time self' = cached_availability_time self.
Proof.
  cbn zeta.
  destruct (serves_stored self count_waitinglist allow_cache w) eqn:stored_;
    cbn [negb andb].
  { rewrite availability_stored by assumption. cbn. auto. }
  destruct (call_cache_entry self count_waitinglist _cache) eqn:entry.
  { erewrite availability_call_cache by eassumption.
    rewrite bool_decide_false by discriminate.
    destruct allow_cache; cbn; auto. }
  rewrite bool_decide_true by reflexivity. cbn [andb].
  rewrite availability_fresh by assumption. cbn zeta.
  rewrite computed_compute.
  fold (persists self count_waitinglist (calc_time now_dt allow_cache w)).
  destruct (persists self count_waitinglist _); cbn [fst snd rows log].
  - repeat split. intros unlimited. rewrite added_app.
    unfold compute, store_trace. rewrite unlimited. reflexivity.
  - unfold after_calc. destruct (size self); cbn; auto.
Qed.

(** ** Rebuilding the stored verdict *)

Lemma stored_set_cached (self : Quota) (a b c : option Z) (d : Demand)
    (res : Verdict) (t : Z) :
  stored (set_cached a b c self) d res t = stored self d res t.
Proof. reflexivity. Qed.

Lemma rebuild_cache_eq (self : Quota) (now_dt : option Z) (w : World) :
  let d := demand w (pk self) in
  let t := calc_time now_dt false w in
  let c := compute (size self) d t true in
  rebuild_cache self now_dt w =
  (stored self d (fst c) t,
   mkWorld (demand w) (<[pk self := row_of (stored self d (fst c) t)]> (rows w))
           (clock w)
           (ticks (match now_dt with Some _ => w | None => tick w end))
           (log w ++ calc_trace self t true (snd c)
                  ++ EvCacheDelete :: store_trace self)).
Proof.
  cbn zeta. unfold rebuild_cache, bind.
  rewrite availability_fresh by reflexivity. cbn zeta.
  reflexivity.
Qed.

(** A call cache that already holds a verdict for the quota answers the
    call that follows [rebuild_cache]: the verdict is neither the one just
    rebuilt nor a computed one. *)
Lemma rebuilt_call_cache_serves_cached : ~ rebuilt_never_serves_cached.
Proof.
  intros claim.
  destruct (claim quota_100 None sample_world None true
                  (Some sample_call_cache) false) as [served|[served _]];
    vm_compute in served; discriminate served.
Qed.

(** C6, amended.  [rebuild_cache] clears the stored state, number and
    timestamp and then calls [availability], which computes afresh whatever
    the quota had stored: one computation runs, its verdict and time are
    stored in memory and in the row, and nothing of the outcome depends on
    the fields stored before.  A call of [availability] that follows
    returns the verdict just rebuilt (line 1008) or computes once more,
    unless the caller's [_cache], after the flag check, holds a verdict for
    the quota: that verdict is then returned and nothing is computed.
    With the default arguments the call that follows always computes. *)
Theorem rebuild_cache_recomputes (self : Quota) (now_dt : option Z) (w : World) :
  let r := rebuild_cache self now_dt w in
  let d := demand w (pk self) in
  let t := calc_time now_dt false w in
  let res := computed self t true w in
  (r = let a := availability (set_cached None None None self) now_dt true
                             None false w in
       (snd (fst (fst a)), snd a)) /\
  calculations (added (log w) (log (snd r))) = 1%nat /\
  row_of (fst r) = mkRow (Some (fst res)) (snd res) (Some (paid d)) (Some t) /\
  rows (snd r) !! pk self = Some (row_of (fst r)) /\
  (forall state number paid_count time,
     rebuild_cache (mkQuota (pk self) (subevent self) (size self)
                            state number paid_count time) now_dt w = r) /\
  (forall now_dt' count_waitinglist _cache allow_cache,
     let r' := availability (fst r) now_dt' count_waitinglist _cache
                            allow_cache (snd r) in
     match serves_stored (fst r) count_waitinglist allow_cache (snd r),
           call_cache_entry (fst r) count_waitinglist _cache with
     | true, _ =>
       fst (fst (fst r')) = of_verdict res /\
       added (log (snd r)) (log (snd r')) = []
     | false, Some cached =>
       fst (fst (fst r')) = of_verdict cached /\
       added (log (snd r)) (log (snd r')) = []
     | false, None =>
       fst (fst (fst r')) =
         of_verdict (computed (fst r) (calc_time now_dt' allow_cache (snd r))
                              count_waitinglist (snd r)) /\
       calculations (added (log (snd r)) (log (snd r'))) = 1%nat
     end) /\
  calculations (added (log (snd r))
                  (log (snd (availability (fst r) None true None false
                               (snd r))))) = 1%nat.
Proof.
  cbn zeta.
  assert (follow : forall now_dt' count_waitinglist _cache allow_cache,
    let r := rebuild_cache self now_dt w in
    let r' := availability (fst r) now_dt' count_waitinglist _cache
                           allow_cache (snd r) in
    match serves_stored (fst r) count_waitinglist allow_cache (snd r),
          call_cache_entry (fst r) count_waitinglist _cache with
    | true, _ =>
      fst (fst (fst r')) =
        of_verdict (computed self (calc_time now_dt false w) true w) /\
      added (log (snd r)) (log (snd r')) = []
    | false, Some cached =>
      fst (fst (fst r')) = of_verdict cached /\
      added (log (snd r)) (log (snd r')) = []
    | false, None =>
      fst (fst (fst r')) =
        of_verdict (computed (fst r) (calc_time now_dt' allow_cache (snd r))
                             count_waitinglist (snd r)) /\
      calculations (added (log (snd r)) (log (snd r'))) = 1%nat
    end).
  { intros now_dt' count_waitinglist _cache allow_cache. cbn zeta.
    pose proof (availability_paths (fst (rebuild_cache self now_dt w))
                  now_dt' count_waitinglist allow_cache _cache
                  (snd (rebuild_cache self now_dt w))) as use.
    cbn zeta in use.
    destruct (serves_stored _ count_waitinglist allow_cache _).
    - destruct use as [-> ->]. split; [|reflexivity].
      rewrite rebuild_cache_eq, computed_compute. reflexivity.
    - exact use. }
  repeat split.
  - unfold rebuild_cache, bind, ret.
    now destruct (availability _ now_dt true None false w) as [[[? ?] ?] ?].
  - rewrite rebuild_cache_eq. cbn [snd log]. rewrite added_app.
    rewrite calculations_calc_trace. unfold calculations, store_trace.
    destruct (size self); reflexivity.
  - rewrite rebuild_cache_eq, computed_compute. reflexivity.
  - rewrite rebuild_cache_eq. cbn [fst snd rows]. apply lookup_insert_eq.
  - intros. rewrite !rebuild_cache_eq. reflexivity.
  - exact follow.
  - exact (proj2 (follow None true None false)).
Qed.

(** ** Two calls in a row *)

(** With the default arguments every call computes: two calls on a clock
    that stands still run the computation twice. *)
Lemma default_calls_compute_twice : ~ two_calls_compute_once.
Proof.
  intros claim.
  assert (still : within_window still_world)
    by (intros i j; cbv; reflexivity).
  destruct (claim quota_100 still_world true true false false still)
    as [_ once].
  vm_compute in once. lia.
Qed.

Lemma hot_at_later (self : Quota) (t t' : Z) :
  t <= t' -> hot_at self t = false -> hot_at self t' = false.
Proof.
  unfold hot_at. destruct (cached_availability_time self); [|reflexivity].
  rewrite !Z.ltb_ge. lia.
Qed.

(** C7, amended.  Take two calls of [availability] in a row that both allow
    the stored verdict to be used ([allow_cache]) and count the waiting
    list, the first without a call cache.  If time does not run backwards
    during the first call, and the second call is made while the verdict
    the first one left is hot (less than 120 seconds after its timestamp),
    then both calls return the same verdict, the second one sends nothing,
    and the computation runs at most once. *)
Theorem availability_idempotent (self : Quota) (w : World)
    (now_dt1 now_dt2 : option Z) (_cache2 : option CallCache) :
  let r1 := availability self now_dt1 true None true w in
  let self1 := snd (fst (fst r1)) in
  let r2 := availability self1 now_dt2 true _cache2 true (snd r1) in
  wall w <= calc_time now_dt1 true w ->
  hot_at self1 (wall (snd r1)) = true ->
  fst (fst (fst r2)) = fst (fst (fst r1)) /\
  added (log (snd r1)) (log (snd r2)) = [] /\
  (calculations (added (log w) (log (snd r2))) <= 1)%nat.
Proof.
  cbn zeta. intros forwards.
  destruct (serves_stored self true true w) eqn:first.
  - rewrite (availability_stored self now_dt1) by assumption.
    cbn [fst snd]. intros hot.
    rewrite availability_stored
      by (unfold serves_stored; now rewrite hot).
    cbn [fst snd tick log]. rewrite added_refl. repeat split. cbn. lia.
  - assert (cold : hot_at self (calc_time now_dt1 true w) = false).
    { apply hot_at_later with (t := wall w); [assumption|].
      unfold serves_stored in first. cbn [andb] in first.
      now rewrite andb_true_r in first. }
    rewrite (availability_fresh self now_dt1) by (assumption || reflexivity).
    cbn zeta. unfold persists. rewrite cold. cbn [andb negb fst snd].
    intros hot.
    rewrite availability_stored
      by (unfold serves_stored; now rewrite hot).
    cbn [fst snd tick log]. rewrite added_refl, added_app.
    repeat split.
    rewrite calculations_calc_trace. unfold calculations, store_trace.
    destruct (size self); cbn; lia.
Qed.

Lemma availability_idempotent_witness :
  fst (fst (fst (availability
                   (snd (fst (fst (availability quota_100 None true None true
                                     sample_world))))
                   None true None true
                   (snd (availability quota_100 None true None true
                           sample_world)))))
  = fst (fst (fst (availability quota_100 None true None true sample_world))).
Proof.
  apply (availability_idempotent quota_100 sample_world None None None).
  - cbv. discriminate.
  - reflexivity.
Defined.

(** ** Combined verdicts *)

(** Without [allow_cache] the state of the verdict is never [None]. *)
Lemma availability_has_state (self : Quota) (now_dt : option Z)
    (count_waitinglist : bool) (_cache : option CallCache) (w : World) :
  has_state
    (fst (fst (fst (availability self now_dt count_waitinglist _cache false w)))).
Proof.
  pose proof (availability_paths self now_dt count_waitinglist false _cache w)
    as use.
  cbn zeta in use. unfold has_state.
  change (serves_stored self count_waitinglist false w) with false in use.
  destruct (call_cache_entry self count_waitinglist _cache);
    destruct use as [-> _]; cbn; eauto.
Qed.

Lemma availability_each_has_state (qs : list Quota) (count_waitinglist : bool)
    (_cache : option CallCache) (w : World) :
  Forall has_state
         (fst (fst (availability_each qs count_waitinglist _cache w))).
Proof.
  revert _cache w.
  induction qs as [|q qs IH]; intros _cache w; cbn; [constructor|].
  unfold bind.
  pose proof (availability_has_state q None count_waitinglist _cache w) as first.
  destruct (availability q None count_waitinglist _cache false w)
    as [[[v q'] c'] w'].
  cbn [fst snd] in *.
  specialize (IH c' w').
  destruct (availability_each qs count_waitinglist c' w') as [[vs c''] w''].
  cbn. constructor; assumption.
Qed.

Lemma at_most_as_available_refl (a : CachedVerdict) :
  has_state a -> at_most_as_available a a.
Proof.
  unfold has_state, at_most_as_available. intros [x ->]. right. lia.
Qed.

Lemma at_most_as_available_trans (a b c : CachedVerdict) :
  at_most_as_available a b -> at_most_as_available b c ->
  at_most_as_available a c.
Proof.
  unfold at_most_as_available.
  destruct (fst a), (fst b), (fst c); try tauto. lia.
Qed.

(** [min] returns an element with the least key. *)
Lemma min_from_least (l : list CachedVerdict) :
  forall best, has_state best -> Forall has_state l ->
  exists v, min_from best l = Return v /\ (v = best \/ In v l) /\
            at_most_as_available v best /\
            forall v', In v' l -> at_most_as_available v v'.
Proof.
  induction l as [|s l IH]; intros best Hbest Hall; cbn [min_from].
  - exists best. repeat split; auto using at_most_as_available_refl.
    intros ? [].
  - inversion Hall as [|? ? Hs Hl]; subst.
    assert (cmp : key_lt (min_key s) (min_key best) = Return true /\
                  at_most_as_available s best \/
                  key_lt (min_key s) (min_key best) = Return false /\
                  at_most_as_available best s).
    { destruct Hs as [x Hx], Hbest as [y Hy].
      unfold key_lt, at_most_as_available, min_key. cbn [fst snd].
      rewrite Hx, Hy.
      set (ks := match snd s with Some n => n | None => sys_maxsize end).
      set (kb := match snd best with Some n => n | None => sys_maxsize end).
      destruct (Z.eqb_spec x y);
        [destruct (Z.ltb_spec ks kb)|destruct (Z.ltb_spec x y)];
        [left|right|left|right]; (split; [reflexivity|lia]). }
    destruct cmp as [[-> le]|[-> le]].
    + destruct (IH s Hs Hl) as (v & -> & mem & vs & rest).
      exists v. repeat split.
      * destruct mem as [->|]; cbn; auto.
      * eauto using at_most_as_available_trans.
      * intros v' [<-|]; auto.
    + destruct (IH best Hbest Hl) as (v & -> & mem & vb & rest).
      exists v. repeat split.
      * destruct mem; cbn; auto.
      * assumption.
      * intros v' [<-|]; eauto using at_most_as_available_trans.
Qed.

Lemma py_min_least (l : list CachedVerdict) :
  l <> [] -> Forall has_state l ->
  exists v, py_min l = Return v /\ In v l /\
            forall v', In v' l -> at_most_as_available v v'.
Proof.
  destruct l as [|s l]; [congruence|]. intros _ Hall.
  inversion Hall as [|? ? Hs Hl]; subst.
  destruct (min_from_least l s Hs Hl) as (v & eq & mem & vs & rest).
  exists v. cbn [py_min]. repeat split; [assumption| |].
  - destruct mem as [->|]; cbn; auto.
  - intros v' [<-|]; auto.
Qed.

Lemma availability_each_nonempty (q : Quota) (qs : list Quota)
    (count_waitinglist : bool) (_cache : option CallCache) (w : World) :
  fst (fst (availability_each (q :: qs) count_waitinglist _cache w)) <> [].
Proof.
  cbn. unfold bind.
  destruct (availability q None count_waitinglist _cache false w) as [r w'].
  destruct (availability_each qs count_waitinglist (snd r) w') as [rs w''].
  cbn. discriminate.
Qed.

(** The second example of the severity ordering in section 8. *)
Example gone_beats_ok :
  py_min [(Some AVAILABILITY_GONE, Some 0); (Some AVAILABILITY_OK, Some 50)]
  = Return (Some AVAILABILITY_GONE, Some 0) /\
  py_min [(Some AVAILABILITY_OK, Some 50); (Some AVAILABILITY_GONE, Some 0)]
  = Return (Some AVAILABILITY_GONE, Some 0).
Proof. split; reflexivity. Qed.

Lemma Item_check_quotas_eq (it : Item.t) (ignored_quotas : option (list Quota))
    (count_waitinglist : bool) (sub : option Z) (_cache : option CallCache)
    (w : World) :
  Item.check_quotas it ignored_quotas count_waitinglist sub _cache w =
  if py_not sub && Item.event_has_subevents it then
    (Raise need_subevent, _cache, w)
  else
    match quotas_to_check (Item.quotas it) (Item._subevent_quotas it)
                          ignored_quotas sub with
    | [] => (Return (Some AVAILABILITY_OK, Some sys_maxsize), _cache, w)
    | q :: qs =>
      if Item.has_variations it then (Raise has_variations_error, _cache, w)
      else (rs <- availability_each (q :: qs) count_waitinglist _cache ;;
            ret (py_min (fst rs), snd rs)) w
    end.
Proof.
  unfold Item.check_quotas, quotas_to_check.
  destruct (py_not sub && Item.event_has_subevents it); [reflexivity|].
  match goal with
  | |- match ?l with _ => _ end _ = _ => destruct l; [reflexivity|]
  end.
  destruct (Item.has_variations it); reflexivity.
Qed.

Lemma ItemVariation_check_quotas_eq (v : ItemVariation.t)
    (ignored_quotas : option (list Quota)) (count_waitinglist : bool)
    (sub : option Z) (_cache : option CallCache) (w : World) :
  ItemVariation.check_quotas v ignored_quotas count_waitinglist sub _cache w =
  if py_not sub && Item.event_has_subevents (ItemVariation.item v) then
    (Raise need_subevent, _cache, w)
  else
    match quotas_to_check (ItemVariation.quotas v)
                          (ItemVariation._subevent_quotas v)
                          ignored_quotas sub with
    | [] => (Return (Some AVAILABILITY_OK, Some sys_maxsize), _cache, w)
    | q :: qs =>
      (rs <- availability_each (q :: qs) count_waitinglist _cache ;;
       ret (py_min (fst rs), snd rs)) w
    end.
Proof.
  unfold ItemVariation.check_quotas, quotas_to_check.
  destruct (py_not sub && Item.event_has_subevents (ItemVariation.item v));
    [reflexivity|].
  match goal with
  | |- match ?l with _ => _ end _ = _ => destruct l; reflexivity
  end.
Qed.

Lemma asked_cons (q : Quota) (qs : list Quota) (count_waitinglist : bool)
    (_cache : option CallCache) (w : World) :
  asked (q :: qs) count_waitinglist _cache w =
  let r := availability q None count_waitinglist _cache false w in
  asked qs count_waitinglist (snd (fst r)) (snd r).
Proof. reflexivity. Qed.

Lemma verdict_after_cons (q0 q : Quota) (before : list Quota)
    (count_waitinglist : bool) (_cache : option CallCache) (w : World) :
  verdict_after (q0 :: before) q count_waitinglist _cache w =
  let r := availability q0 None count_waitinglist _cache false w in
  verdict_after before q count_waitinglist (snd (fst r)) (snd r).
Proof. reflexivity. Qed.

(** [availability_each] asks the quotas in turn: its verdicts are those
    [Quota.availability] returns for each quota after the ones before it. *)
Lemma availability_each_asked (qs : list Quota) (count_waitinglist : bool) :
  forall (_cache : option CallCache) (w : World),
    let r := availability_each qs count_waitinglist _cache w in
    (snd (fst r), snd r) = asked qs count_waitinglist _cache w /\
    forall v, In v (fst (fst r)) <->
      exists before q after,
        qs = before ++ q :: after /\
        v = verdict_after before q count_waitinglist _cache w.
Proof.
  induction qs as [|q0 qs IH]; intros _cache w; cbn zeta.
  - split; [reflexivity|]. intros v. split; [intros []|].
    intros ([|? ?] & ? & ? & [=] & _).
  - rewrite asked_cons. cbn [availability_each]. unfold bind, ret.
    cbn zeta.
    destruct (availability q0 None count_waitinglist _cache false w)
      as [[[v0 q0'] c'] w'] eqn:first.
    cbn [fst snd].
    specialize (IH c' w'). cbn zeta in IH.
    destruct (availability_each qs count_waitinglist c' w') as [[vs c''] w''].
    cbn [fst snd] in *. destruct IH as [IHst IHv].
    split; [assumption|].
    intros v. cbn [In]. rewrite IHv. split.
    + intros [<-|(before & q & after & -> & ->)].
      * exists [], q0, qs. split; [reflexivity|].
        unfold verdict_after, asked. cbn [fold_left fst snd]. now rewrite first.
      * exists (q0 :: before), q, after. split; [reflexivity|].
        rewrite verdict_after_cons. cbn zeta. now rewrite first.
    + intros ([|q1 before] & q & after & eq & ->).
      * injection eq as <- <-. left.
        unfold verdict_after, asked. cbn [fold_left fst snd]. now rewrite first.
      * injection eq as <- ->. right. exists before, q, after.
        split; [reflexivity|].
        rewrite verdict_after_cons. cbn zeta. now rewrite first.
Qed.

(** The last line of both [check_quotas] methods picks the least of the
    verdicts of the quotas. *)
Lemma least_of_availabilities (qs : list Quota) (count_waitinglist : bool)
    (_cache : option CallCache) (w : World) :
  qs <> [] ->
  least_available qs count_waitinglist _cache w
    ((rs <- availability_each qs count_waitinglist _cache ;;
      ret (py_min (fst rs), snd rs)) w).
Proof.
  destruct qs as [|q qs]; [congruence|]. intros _.
  unfold least_available, bind, ret.
  pose proof (availability_each_nonempty q qs count_waitinglist _cache w) as ne.
  pose proof (availability_each_has_state (q :: qs) count_waitinglist _cache w)
    as states.
  destruct (availability_each_asked (q :: qs) count_waitinglist _cache w)
    as [st members].
  destruct (availability_each (q :: qs) count_waitinglist _cache w)
    as [[vs c'] w'].
  cbn [fst snd] in *.
  destruct (py_min_least vs ne states) as (v & -> & mem & least).
  exists v. rewrite <- st. cbn [fst snd]. split; [reflexivity|]. split.
  - now apply members.
  - intros before q' after eq. apply least, members. eauto.
Qed.

(** A call with the default arguments and no call cache computes. *)
Lemma availability_default (self : Quota) (count_waitinglist : bool)
    (w : World) :
  let r := availability self None count_waitinglist None false w in
  fst (fst (fst r)) = of_verdict (computed self (wall w) count_waitinglist w) /\
  snd (fst r) = None /\
  demand (snd r) = demand w /\ clock (snd r) = clock w /\
  ticks (snd r) = S (ticks w).
Proof.
  cbn zeta. rewrite availability_fresh by reflexivity. cbn zeta.
  rewrite computed_compute.
  destruct (persists self count_waitinglist _); cbn; auto 10.
Qed.

(** The verdict computed depends on the world through the demand only. *)
Lemma computed_demand (self : Quota) (t : Z) (count_waitinglist : bool)
    (w w' : World) :
  demand w' = demand w ->
  computed self t count_waitinglist w' = computed self t count_waitinglist w.
Proof. intros same. rewrite !computed_compute. now rewrite same. Qed.

(** Without a call cache every quota is computed, at the time of one more
    reading of the clock. *)
Lemma asked_none (before : list Quota) (count_waitinglist : bool) :
  forall w : World,
    let st := asked before count_waitinglist None w in
    fst st = None /\ demand (snd st) = demand w /\ clock (snd st) = clock w /\
    ticks (snd st) = (ticks w + length before)%nat.
Proof.
  induction before as [|q before IH]; intros w; cbn zeta.
  - cbn. repeat split; lia.
  - rewrite asked_cons. cbn zeta.
    destruct (availability_default q count_waitinglist w)
      as (_ & -> & same_demand & same_clock & ticked).
    destruct (IH (snd (availability q None count_waitinglist None false w)))
      as (-> & -> & -> & ->).
    rewrite ticked. cbn [length]. repeat split; auto; lia.
Qed.

Lemma verdict_after_none (before : list Quota) (q : Quota)
    (count_waitinglist : bool) (w : World) :
  verdict_after before q count_waitinglist None w =
  of_verdict (computed q (clock w (ticks w + length before)%nat)
                       count_waitinglist w).
Proof.
  unfold verdict_after. cbn zeta.
  destruct (asked_none before count_waitinglist w)
    as (-> & same_demand & same_clock & ticked).
  destruct (availability_default q count_waitinglist
              (snd (asked before count_waitinglist None w))) as (-> & _).
  unfold wall. rewrite same_clock, ticked.
  now rewrite (computed_demand _ _ _ w) by assumption.
Qed.



Example check_quotas_sample :
  fst (fst (Item.check_quotas sample_item None true None None sample_world))
  = Return (Some AVAILABILITY_GONE, Some 0).
Proof. reflexivity. Qed.

(** ** Errors of [check_quotas] *)

(** C9.  On an item or a variation of an event series
    ([event.has_subevents]), [check_quotas] without a subevent raises the
    [TypeError] "You need to supply a subevent.": no verdict is returned, no
    quota is asked for its availability, and the call cache and the world
    are left as they were. *)
Theorem check_quotas_needs_subevent (it : Item.t) (v : ItemVariation.t)
    (ignored_quotas : option (list Quota)) (count_waitinglist : bool)
    (_cache : option CallCache) (w : World) :
  (Item.event_has_subevents it = true ->
   Item.check_quotas it ignored_quotas count_waitinglist None _cache w
   = (Raise need_subevent, _cache, w)) /\
  (Item.event_has_subevents (ItemVariation.item v) = true ->
   ItemVariation.check_quotas v ignored_quotas count_waitinglist None _cache w
   = (Raise need_subevent, _cache, w)).
Proof.
  rewrite Item_check_quotas_eq, ItemVariation_check_quotas_eq.
  split; intros ->; reflexivity.
Qed.

Lemma check_quotas_needs_subevent_witness :
  Item.check_quotas series_item None true None None sample_world
  = (Raise need_subevent, None, sample_world) /\
  ItemVariation.check_quotas series_variation None true None None sample_world
  = (Raise need_subevent, None, sample_world).
Proof.
  split;
    apply (check_quotas_needs_subevent series_item series_variation None true
             None sample_world); reflexivity.
Defined.

(** C10.  [Item.check_quotas] on an item that has variations returns
    unlimited availability [(OK, sys.maxsize)] when no quota is left to
    check once the ignored ones are removed: the test for an empty set comes
    before the test for variations.  The [ValueError] about variations is
    raised exactly when the item has variations and at least one quota is
    left to check (and the subevent test has passed). *)
Theorem check_quotas_empty_before_variations (it : Item.t)
    (ignored_quotas : option (list Quota)) (count_waitinglist : bool)
    (sub : option Z) (_cache : option CallCache) (w : World) :
  let remaining := quotas_to_check (Item.quotas it) (Item._subevent_quotas it)
                                   ignored_quotas sub in
  let r := Item.check_quotas it ignored_quotas count_waitinglist sub _cache w in
  (Item.has_variations it = true ->
   py_not sub && Item.event_has_subevents it = false ->
   remaining = [] ->
   r = (Return (Some AVAILABILITY_OK, Some sys_maxsize), _cache, w)) /\
  (fst (fst r) = Raise has_variations_error <->
   Item.has_variations it = true /\
   py_not sub && Item.event_has_subevents it = false /\
   remaining <> []).
Proof.
  cbn zeta. rewrite Item_check_quotas_eq. split.
  - intros _ -> ->. reflexivity.
  - destruct (py_not sub && Item.event_has_subevents it);
      [cbn; split; [discriminate|intros (_ & [=] & _)]|].
    destruct (quotas_to_check _ _ _ _) as [|q qs] eqn:remaining;
      [cbn; split; [discriminate|now intros (_ & _ & ?)]|].
    destruct (Item.has_variations it);
      [cbn; split; [intros _; repeat split; discriminate|reflexivity]|].
    split; [|now intros ([=] & _)].
    pose proof (least_of_availabilities (q :: qs) count_waitinglist _cache w)
      as combined.
    unfold least_available in combined.
    destruct combined as (v & -> & _); [discriminate|].
    discriminate.
Qed.

Lemma check_quotas_empty_before_variations_witness :
  Item.check_quotas item_with_variations (Some [quota_100]) true None None
                    sample_world
  = (Return (Some AVAILABILITY_OK, Some sys_maxsize), None, sample_world).
Proof.
  apply (check_quotas_empty_before_variations item_with_variations
           (Some [quota_100]) true None None sample_world); reflexivity.
Defined.

Example check_quotas_variations_error :
  fst (fst (Item.check_quotas item_with_variations None true None None
                              sample_world))
  = Raise has_variations_error.
Proof. reflexivity. Qed.

(** * Further properties *)

(** ** The verdict of [_availability] *)

Lemma compute_shape (C : Z) (d : Demand) (t : Z) (count_waitlist : bool) :
  let res := fst (compute (Some C) d t count_waitlist) in
  In (fst res) [AVAILABILITY_GONE; AVAILABILITY_ORDERED;
                AVAILABILITY_RESERVED; AVAILABILITY_OK] /\
  exists n, snd res = Some n /\ 0 <= n /\
            (0 < n <-> fst res = AVAILABILITY_OK).
Proof.
  unfold compute, AVAILABILITY_GONE, AVAILABILITY_ORDERED,
    AVAILABILITY_RESERVED, AVAILABILITY_OK.
  repeat match goal with
         | |- context [if ?x <=? ?y then _ else _] =>
           destruct (Z.leb_spec x y)
         | |- context [if count_waitlist then _ else _] =>
           destruct count_waitlist
         end; cbn [fst snd In];
    (split; [tauto|]); eexists; (split; [reflexivity|]);
    split; try lia; split; intros; (lia || discriminate || reflexivity).
Qed.

(** X1.  The verdict of [_availability] always has one of the four states.
    For an unlimited quota it is [(OK, None)].  For a limited quota the
    number is an integer that is never negative and is positive exactly when
    the state is [OK]; with non-negative demand counts it never exceeds the
    capacity. *)
Theorem availability_verdict_shape (self : Quota) (now_dt : option Z)
    (count_waitinglist : bool) (w : World) :
  let res := fst (fst (_availability self now_dt count_waitinglist w)) in
  let t := calc_time now_dt false w in
  In (fst res) [AVAILABILITY_GONE; AVAILABILITY_ORDERED;
                AVAILABILITY_RESERVED; AVAILABILITY_OK] /\
  match size self with
  | None => res = (AVAILABILITY_OK, None)
  | Some C =>
    exists n, snd res = Some n /\ 0 <= n /\
              (0 < n <-> fst res = AVAILABILITY_OK) /\
              (demand_nonneg (demand w (pk self)) t -> n <= Z.max 0 C)
  end.
Proof.
  cbn zeta.
  assert (eq : fst (fst (_availability self now_dt count_waitinglist w)) =
               fst (compute (size self) (demand w (pk self))
                      (calc_time now_dt false w) count_waitinglist)).
  { destruct now_dt as [t|]; rewrite ?_availability_now;
      now rewrite _availability_compute. }
  rewrite eq. clear eq.
  destruct (size self) as [C|]; [|cbn; tauto].
  destruct (compute_shape C (demand w (pk self)) (calc_time now_dt false w)
              count_waitinglist) as (state & n & number & nonneg & ok).
  split; [assumption|].
  exists n. repeat split; try tauto.
  intros counts.
  destruct (computed_count_bounded C _ _ count_waitinglist n counts number).
  lia.
Qed.

(** ** More demand, less capacity *)

Lemma compute_antitone (C C' : Z) (d d' : Demand) (t : Z) (b b' : bool) :
  C' <= C -> demand_le d d' t -> 0 <= waitlist d' -> implb b b' = true ->
  at_most_as_available (of_verdict (fst (compute (Some C') d' t b')))
                       (of_verdict (fst (compute (Some C) d t b))).
Proof.
  intros capacity (Hp & Hq & Hb & Hc & Hw) nonneg flags.
  unfold compute, at_most_as_available, of_verdict, min_key,
    AVAILABILITY_GONE, AVAILABILITY_ORDERED, AVAILABILITY_RESERVED,
    AVAILABILITY_OK.
  destruct b, b'; try discriminate flags;
    repeat match goal with
           | |- context [if ?x <=? ?y then _ else _] =>
             destruct (Z.leb_spec x y); try lia
           end; cbn [fst snd]; lia.
Qed.

(** X2.  [_availability] never reports more availability when the capacity
    shrinks, when any demand count grows, or when the waiting list is
    counted in addition: the state does not rise, and at an equal state the
    number does not grow. *)
Theorem availability_antitone (self : Quota) (w : World) (t C C' : Z)
    (demand' : Z -> Demand) (count_waitinglist count_waitinglist' : bool) :
  size self = Some C ->
  C' <= C ->
  demand_le (demand w (pk self)) (demand' (pk self)) t ->
  0 <= waitlist (demand' (pk self)) ->
  implb count_waitinglist count_waitinglist' = true ->
  at_most_as_available
    (of_verdict (fst (fst (_availability (with_size (Some C') self) (Some t)
                             count_waitinglist' (with_demand demand' w)))))
    (of_verdict (fst (fst (_availability self (Some t) count_waitinglist w)))).
Proof.
  intros finite capacity more nonneg flags.
  rewrite !_availability_compute. cbn [fst]. rewrite finite.
  now apply compute_antitone.
Qed.

Lemma availability_antitone_witness :
  at_most_as_available
    (of_verdict (fst (fst (_availability (with_size (Some 50) quota_100)
                             (Some 0) true
                             (with_demand (fun _ => mkDemand 40 5 (fun _ => 0)
                                                      (fun _ => 10) 5)
                                          sample_world)))))
    (of_verdict (fst (fst (_availability quota_100 (Some 0) false
                             sample_world)))).
Proof.
  apply (availability_antitone quota_100 sample_world 0 100 50
           (fun _ => mkDemand 40 5 (fun _ => 0) (fun _ => 10) 5) false true).
  - reflexivity.
  - lia.
  - cbv. intuition discriminate.
  - cbv. discriminate.
  - reflexivity.
Defined.

(** ** The window of [cache_is_hot] *)

(** X3.  A quota without a stored timestamp is never hot.  With a stored
    timestamp it is hot exactly before 120 seconds have passed since that
    time, so a timestamp that lies in the future is always hot; and a
    verdict that is hot at some time is hot at every earlier time. *)
Theorem cache_is_hot_window (self : Quota) (w : World) :
  (cached_availability_time self = None ->
   forall t, fst (cache_is_hot self (Some t) w) = false) /\
  (forall c t, cached_availability_time self = Some c ->
     (fst (cache_is_hot self (Some t) w) = true <-> t < c + 120 * 1000000) /\
     (t <= c -> fst (cache_is_hot self (Some t) w) = true)) /\
  (forall t t', t <= t' ->
     fst (cache_is_hot self (Some t') w) = true ->
     fst (cache_is_hot self (Some t) w) = true).
Proof.
  split; [|split].
  - intros none t. rewrite cache_is_hot_at. cbn [fst]. unfold hot_at.
    now rewrite none.
  - intros c t some. rewrite cache_is_hot_at. cbn [fst].
    unfold hot_at, staleness_window. rewrite some, Z.ltb_lt. lia.
  - intros t t' earlier. rewrite !cache_is_hot_at. cbn [fst].
    unfold hot_at, staleness_window.
    destruct (cached_availability_time self); [|discriminate].
    rewrite !Z.ltb_lt. lia.
Qed.

(** ** The event's cache entry *)

Lemma cache_deletes_calc_trace (self : Quota) (t : Z) (b : bool)
    (qs : list Query) (rest : list Effect) :
  cache_deletes (calc_trace self t b qs ++ rest) = cache_deletes rest.
Proof.
  unfold cache_deletes, calc_trace. cbn [app List.filter].
  rewrite List.filter_app, length_app.
  replace (List.filter _ (map (EvQuery (pk self)) qs)) with (@nil Effect)
    by (induction qs; auto).
  reflexivity.
Qed.

(** X4.  [availability] deletes the event's ['item_quota_cache'] entry once
    in every call that computes, and never in a call that returns the
    stored verdict or an entry of the call cache; no call runs the
    computation more than once. *)
Theorem availability_cache_deletes (self : Quota) (now_dt : option Z)
    (count_waitinglist allow_cache : bool) (_cache : option CallCache)
    (w : World) :
  let r := availability self now_dt count_waitinglist _cache allow_cache w in
  let computes :=
    negb (serves_stored self count_waitinglist allow_cache w)
    && bool_decide (call_cache_entry self count_waitinglist _cache = None) in
  cache_deletes (added (log w) (log (snd r))) = (if computes then 1 else 0)%nat
  /\
  calculations (added (log w) (log (snd r))) = (if computes then 1 else 0)%nat.
Proof.
  cbn zeta.
  destruct (serves_stored self count_waitinglist allow_cache w) eqn:stored_;
    cbn [negb andb].
  { rewrite availability_stored by assumption. cbn. now rewrite added_refl. }
  destruct (call_cache_entry self count_waitinglist _cache) eqn:entry.
  { erewrite availability_call_cache by eassumption.
    rewrite bool_decide_false by discriminate.
    destruct allow_cache; cbn; now rewrite added_refl. }
  rewrite bool_decide_true by reflexivity.
  rewrite availability_fresh by assumption. cbn zeta.
  destruct (persists self count_waitinglist _); cbn [fst snd log];
    rewrite added_app, cache_deletes_calc_trace, calculations_calc_trace;
    unfold cache_deletes, calculations, store_trace;
    destruct (size self); auto.
Qed.

(** ** The call cache *)

Lemma flag_checked_settled (count_waitinglist : bool)
    (_cache : option CallCache) (c : CallCache) :
  flag_checked count_waitinglist _cache = Some c ->
  settled count_waitinglist c.
Proof.
  unfold settled, flag_checked. destruct _cache as [c0|]; [|discriminate].
  destruct (dict_truthy c0 && _) eqn:cleared; intros [= <-].
  - reflexivity.
  - now rewrite cleared.
Qed.

Lemma flag_checked_some (count_waitinglist : bool) (c : CallCache) :
  exists c0, flag_checked count_waitinglist (Some c) = Some c0.
Proof. unfold flag_checked. destruct (_ && _); eauto. Qed.

Lemma dict_store_settled (k : Z) (res : Verdict) (count_waitinglist : bool)
    (c : CallCache) :
  settled count_waitinglist (dict_store k res count_waitinglist c).
Proof.
  unfold settled, flag_checked, dict_store. cbn [flag_entry default].
  now rewrite eqb_reflx, andb_false_r.
Qed.

(** A settled call cache that holds the quota answers the call. *)
Lemma availability_hit (self : Quota) (now_dt : option Z)
    (count_waitinglist : bool) (c : CallCache) (res : Verdict) (w : World) :
  settled count_waitinglist c ->
  entries c !! pk self = Some res ->
  availability self now_dt count_waitinglist (Some c) false w =
  ((of_verdict res, self, Some c), w).
Proof.
  intros stable entry.
  rewrite (availability_call_cache self now_dt count_waitinglist false
             (Some c) w res); [now rewrite stable|reflexivity|].
  unfold call_cache_entry. now rewrite stable.
Qed.

(** One call with a call cache: the cache it leaves is settled and holds
    the verdict returned, and a settled cache loses no entry. *)
Lemma availability_step (self : Quota) (now_dt : option Z)
    (count_waitinglist : bool) (c : CallCache) (w : World) :
  let r := availability self now_dt count_waitinglist (Some c) false w in
  exists c' res,
    snd (fst r) = Some c' /\ settled count_waitinglist c' /\
    entries c' !! pk self = Some res /\
    fst (fst (fst r)) = of_verdict res /\
    pk (snd (fst (fst r))) = pk self /\
    (settled count_waitinglist c ->
     forall k x, entries c !! k = Some x -> entries c' !! k = Some x).
Proof.
  cbn zeta.
  destruct (flag_checked_some count_waitinglist c) as [c0 checked].
  pose proof (flag_checked_settled _ _ _ checked) as stable0.
  destruct (call_cache_entry self count_waitinglist (Some c)) as [cached|]
    eqn:entry.
  - rewrite (availability_call_cache self now_dt count_waitinglist false
               (Some c) w cached) by (reflexivity || assumption).
    cbn [fst snd]. unfold call_cache_entry in entry. rewrite checked in *.
    exists c0, cached. repeat split; auto.
    intros stable. unfold settled in stable. congruence.
  - rewrite availability_fresh by (reflexivity || assumption). cbn zeta.
    unfold call_cache_entry in entry. rewrite checked in *. cbn in entry.
    set (res := fst (compute _ _ _ _)).
    exists (dict_store (pk self) res count_waitinglist c0), res.
    assert (keeps : settled count_waitinglist c ->
                    forall k x, entries c !! k = Some x ->
                    entries (dict_store (pk self) res count_waitinglist c0)
                      !! k = Some x).
    { intros stable k x found. unfold settled in stable.
      assert (c0 = c) as -> by congruence.
      cbn [dict_store entries].
      destruct (decide (k = pk self)) as [->|other]; [congruence|].
      now rewrite lookup_insert_ne by congruence. }
    destruct (persists self count_waitinglist _); cbn [fst snd fmap option_fmap option_map];
      repeat split; auto using dict_store_settled;
      try (cbn; apply lookup_insert_eq);
      unfold after_calc; destruct (size self); reflexivity.
Qed.

(** The same with any [allow_cache], for a call that does not hand out the
    stored verdict. *)
Lemma availability_hit_any (self : Quota) (now_dt : option Z)
    (count_waitinglist allow_cache : bool) (c : CallCache) (res : Verdict)
    (w : World) :
  serves_stored self count_waitinglist allow_cache w = false ->
  settled count_waitinglist c ->
  entries c !! pk self = Some res ->
  availability self now_dt count_waitinglist (Some c) allow_cache w =
  ((of_verdict res, self, Some c), if allow_cache then tick w else w).
Proof.
  intros miss stable entry.
  rewrite (availability_call_cache self now_dt count_waitinglist allow_cache
             (Some c) w res); [now rewrite stable|assumption|].
  unfold call_cache_entry. now rewrite stable.
Qed.

(** One call with a call cache that does not hand out the stored verdict,
    whatever [allow_cache]: the cache it leaves is settled and holds the
    verdict returned. *)
Lemma availability_leaves_verdict (self : Quota) (now_dt : option Z)
    (count_waitinglist allow_cache : bool) (c : CallCache) (w : World) :
  serves_stored self count_waitinglist allow_cache w = false ->
  let r := availability self now_dt count_waitinglist (Some c) allow_cache w in
  exists c' res,
    snd (fst r) = Some c' /\ settled count_waitinglist c' /\
    entries c' !! pk self = Some res /\
    fst (fst (fst r)) = of_verdict res /\
    pk (snd (fst (fst r))) = pk self.
Proof.
  intros miss. cbn zeta.
  destruct (flag_checked_some count_waitinglist c) as [c0 checked].
  pose proof (flag_checked_settled _ _ _ checked) as stable0.
  destruct (call_cache_entry self count_waitinglist (Some c)) as [cached|]
    eqn:entry.
  - rewrite (availability_call_cache self now_dt count_waitinglist allow_cache
               (Some c) w cached) by assumption.
    cbn [fst snd]. unfold call_cache_entry in entry. rewrite checked in *.
    exists c0, cached. repeat split; auto.
  - rewrite availability_fresh by assumption. cbn zeta.
    unfold call_cache_entry in entry. rewrite checked in *. cbn in entry.
    set (res := fst (compute _ _ _ _)).
    exists (dict_store (pk self) res count_waitinglist c0), res.
    destruct (persists self count_waitinglist _);
      cbn [fst snd fmap option_fmap option_map];
      repeat split; auto using dict_store_settled;
      try (cbn; apply lookup_insert_eq);
      unfold after_calc; destruct (size self); reflexivity.
Qed.

(** X5.  A call of [availability] that is given a call cache and does not
    hand out the stored verdict (line 1008) leaves its verdict in that
    cache.  The call repeated with the cache returned and the same
    [count_waitinglist], whatever its [now_dt] and [allow_cache], leaves
    the cache as it is and changes nothing in the world but the clock
    reading of line 1007: it hands out the stored verdict if the test of
    line 1007 holds for it, and the verdict of the first call otherwise.
    A first call that hands out the stored verdict leaves the call cache
    untouched. *)
Theorem call_cache_round_trip (self : Quota) (now_dt1 now_dt2 : option Z)
    (count_waitinglist allow_cache1 allow_cache2 : bool) (c : CallCache)
    (w : World) :
  let r1 := availability self now_dt1 count_waitinglist (Some c) allow_cache1
                         w in
  let self1 := snd (fst (fst r1)) in
  let r2 := availability self1 now_dt2 count_waitinglist (snd (fst r1))
                         allow_cache2 (snd r1) in
  if serves_stored self count_waitinglist allow_cache1 w then
    fst (fst (fst r1)) =
      (cached_availability_state self, cached_availability_number self) /\
    snd (fst r1) = Some c
  else
    (exists c1 res,
       snd (fst r1) = Some c1 /\ entries c1 !! pk self = Some res /\
       fst (fst (fst r1)) = of_verdict res) /\
    snd (fst r2) = snd (fst r1) /\
    if serves_stored self1 count_waitinglist allow_cache2 (snd r1) then
      fst (fst (fst r2)) =
        (cached_availability_state self1, cached_availability_number self1) /\
      snd r2 = tick (snd r1)
    else
      fst (fst (fst r2)) = fst (fst (fst r1)) /\
      snd r2 = if allow_cache2 then tick (snd r1) else snd r1.
Proof.
  cbn zeta.
  destruct (serves_stored self count_waitinglist allow_cache1 w) eqn:first.
  { rewrite availability_stored by assumption. auto. }
  destruct (availability_leaves_verdict self now_dt1 count_waitinglist
              allow_cache1 c w first)
    as (c' & res & cache & stable & entry & verdict & same).
  split; [eauto|].
  rewrite cache, verdict.
  destruct (serves_stored _ count_waitinglist allow_cache2 _) eqn:second.
  - rewrite availability_stored by assumption. auto.
  - rewrite (availability_hit_any _ now_dt2 count_waitinglist allow_cache2 c'
               res) by (assumption || now rewrite same).
    auto.
Qed.

(** X6.  A call that finds a non-empty call cache filled under the other
    setting of [count_waitinglist] either hands out the stored verdict
    (line 1008) and leaves the cache untouched, or discards all of the
    cache: the verdict is then computed afresh even if the cache held one
    for the quota, and the cache returned holds this verdict and the new
    flag and nothing else. *)
Theorem call_cache_flag_change (self : Quota) (now_dt : option Z)
    (count_waitinglist allow_cache : bool) (c : CallCache) (w : World) :
  dict_truthy c = true ->
  default true (flag_entry c) = negb count_waitinglist ->
  let r := availability self now_dt count_waitinglist (Some c) allow_cache w in
  let res := computed self (calc_time now_dt allow_cache w) count_waitinglist
                      w in
  if serves_stored self count_waitinglist allow_cache w then
    fst (fst (fst r)) =
      (cached_availability_state self, cached_availability_number self) /\
    snd (fst r) = Some c
  else
    fst (fst (fst r)) = of_verdict res /\
    snd (fst r) = Some (mkCallCache {[ pk self := res ]}
                                    (Some count_waitinglist)).
Proof.
  intros filled other. cbn zeta.
  destruct (serves_stored self count_waitinglist allow_cache w) eqn:first.
  { rewrite availability_stored by assumption. auto. }
  assert (cleared : flag_checked count_waitinglist (Some c) = Some dict_clear).
  { unfold flag_checked. rewrite filled, other.
    now destruct count_waitinglist. }
  rewrite availability_fresh;
    [|assumption|unfold call_cache_entry; now rewrite cleared].
  cbn zeta. rewrite cleared, computed_compute.
  destruct (persists self count_waitinglist _); cbn [fst snd]; split;
    try reflexivity; cbn; unfold dict_store; cbn;
    now rewrite insert_empty.
Qed.

Lemma call_cache_flag_change_witness :
  snd (fst (availability quota_100 None false (Some sample_call_cache) true
              sample_world))
  = Some (mkCallCache {[ 1 := (AVAILABILITY_OK, Some 60) ]} (Some false)).
Proof.
  exact (proj2 (call_cache_flag_change quota_100 None false true
                  sample_call_cache sample_world eq_refl eq_refl)).
Defined.

(** ** [check_quotas] with a call cache *)

(** After the quotas were asked in turn, the call cache holds the verdict
    of each. *)
Lemma availability_each_settles (count_waitinglist : bool) (qs : list Quota) :
  forall (c : CallCache) (w : World),
  let r := availability_each qs count_waitinglist (Some c) w in
  exists c1,
    snd (fst r) = Some c1 /\
    (settled count_waitinglist c -> settled count_waitinglist c1) /\
    (qs <> [] -> settled count_waitinglist c1) /\
    Forall2 (fun q v => exists res, entries c1 !! pk q = Some res /\
                                    v = of_verdict res)
            qs (fst (fst r)) /\
    (settled count_waitinglist c ->
     forall k x, entries c !! k = Some x -> entries c1 !! k = Some x).
Proof.
  induction qs as [|q qs IH]; intros c w; cbn zeta.
  - exists c. cbn. repeat split; auto. congruence.
  - cbn [availability_each]. unfold bind.
    destruct (availability_step q None count_waitinglist c w)
      as (c' & res & cache & stable & entry & verdict & _ & keeps).
    destruct (availability q None count_waitinglist (Some c) false w)
      as [[[v q'] cache'] w'].
    cbn [fst snd] in *. subst cache' v.
    destruct (IH c' w') as (c1 & cache1 & stable1 & _ & all & keeps1).
    destruct (availability_each qs count_waitinglist (Some c') w')
      as [[vs cache1'] w1].
    cbn [fst snd ret] in *. subst cache1'.
    exists c1. repeat split; auto.
    constructor; [|assumption]. exists res. auto.
Qed.

(** A settled call cache that holds every quota answers all the calls. *)
Lemma availability_each_replay (count_waitinglist : bool) (c : CallCache)
    (qs : list Quota) (vs : list CachedVerdict) (w : World) :
  settled count_waitinglist c ->
  Forall2 (fun q v => exists res, entries c !! pk q = Some res /\
                                  v = of_verdict res) qs vs ->
  availability_each qs count_waitinglist (Some c) w = ((vs, Some c), w).
Proof.
  intros stable all. induction all as [|q v qs vs (res & entry & ->) _ IH].
  - reflexivity.
  - cbn [availability_each]. unfold bind.
    rewrite (availability_hit q None count_waitinglist c res) by assumption.
    cbn [fst snd]. now rewrite IH.
Qed.

Lemma min_of_availabilities_replay (qs : list Quota)
    (count_waitinglist : bool) (c : CallCache) (w : World) :
  qs <> [] ->
  let run cache world :=
    (rs <- availability_each qs count_waitinglist cache ;;
     ret (py_min (fst rs), snd rs)) world in
  let r1 := run (Some c) w in
  run (snd (fst r1)) (snd r1) = r1.
Proof.
  intros ne. cbn zeta. unfold bind, ret.
  destruct (availability_each_settles count_waitinglist qs c w)
    as (c1 & cache & _ & stable & all & _).
  destruct (availability_each qs count_waitinglist (Some c) w)
    as [[vs cache1] w1].
  cbn [fst snd] in *. subst cache1.
  now rewrite (availability_each_replay count_waitinglist c1 qs vs w1)
    by auto.
Qed.

(** X7.  [check_quotas] fills the call cache it is given: called again with
    the cache and the world it left, on an item or on a variation, it
    returns the same outcome and changes neither the cache nor the world,
    so nothing is computed or queried a second time. *)
Theorem check_quotas_replay (it : Item.t) (v : ItemVariation.t)
    (ignored_quotas : option (list Quota)) (count_waitinglist : bool)
    (sub : option Z) (c : CallCache) (w : World) :
  (let r1 := Item.check_quotas it ignored_quotas count_waitinglist sub
                               (Some c) w in
   Item.check_quotas it ignored_quotas count_waitinglist sub (snd (fst r1))
                     (snd r1) = r1) /\
  (let r1 := ItemVariation.check_quotas v ignored_quotas count_waitinglist sub
                                        (Some c) w in
   ItemVariation.check_quotas v ignored_quotas count_waitinglist sub
                              (snd (fst r1)) (snd r1) = r1).
Proof.
  split; cbn zeta.
  - rewrite (Item_check_quotas_eq it ignored_quotas count_waitinglist sub
               (Some c) w).
    destruct (py_not sub && Item.event_has_subevents it) eqn:scope;
      [cbn [fst snd]; rewrite Item_check_quotas_eq; now rewrite scope|].
    destruct (quotas_to_check (Item.quotas it) _ _ _) as [|q qs] eqn:left;
      [cbn [fst snd]; rewrite Item_check_quotas_eq; now rewrite scope, left|].
    destruct (Item.has_variations it) eqn:variations;
      [cbn [fst snd]; rewrite Item_check_quotas_eq;
       now rewrite scope, left, variations|].
    rewrite Item_check_quotas_eq, scope, left, variations.
    apply (min_of_availabilities_replay (q :: qs)). discriminate.
  - rewrite (ItemVariation_check_quotas_eq v ignored_quotas count_waitinglist
               sub (Some c) w).
    destruct (py_not sub && Item.event_has_subevents (ItemVariation.item v))
      eqn:scope;
      [cbn [fst snd]; rewrite ItemVariation_check_quotas_eq;
       now rewrite scope|].
    destruct (quotas_to_check (ItemVariation.quotas v) _ _ _) as [|q qs]
      eqn:left;
      [cbn [fst snd]; rewrite ItemVariation_check_quotas_eq;
       now rewrite scope, left|].
    rewrite ItemVariation_check_quotas_eq, scope, left.
    apply (min_of_availabilities_replay (q :: qs)). discriminate.
Qed.

(** ** Ignored quotas *)

Lemma availability_trace (self : Quota) (now_dt : option Z)
    (count_waitinglist allow_cache : bool) (_cache : option CallCache)
    (w : World) :
  let r := availability self now_dt count_waitinglist _cache allow_cache w in
  exists l, log (snd r) = log w ++ l /\ Forall (about (pk self)) l.
Proof.
  cbn zeta.
  destruct (serves_stored self count_waitinglist allow_cache w) eqn:stored_.
  { rewrite availability_stored by assumption. exists []. cbn.
    now rewrite app_nil_r. }
  destruct (call_cache_entry self count_waitinglist _cache) eqn:entry.
  { erewrite availability_call_cache by eassumption. exists [].
    destruct allow_cache; cbn; now rewrite app_nil_r. }
  rewrite availability_fresh by assumption. cbn zeta.
  assert (trace : forall t b qs, Forall (about (pk self))
                                        (calc_trace self t b qs)).
  { intros. unfold calc_trace. constructor; [now intros ? [= <-]|].
    induction qs; constructor; auto. now intros ? [= <-]. }
  assert (store : Forall (about (pk self)) (EvCacheDelete :: store_trace self)).
  { unfold store_trace. destruct (size self);
      repeat constructor; intros ? [=]; auto. }
  destruct (persists self count_waitinglist _); eexists;
    (split; [reflexivity|]); apply Forall_app; split; auto.
  constructor; [intros ? [=]|constructor].
Qed.

Lemma availability_each_trace (count_waitinglist : bool) (qs : list Quota) :
  forall (_cache : option CallCache) (w : World),
  exists l, log (snd (availability_each qs count_waitinglist _cache w))
            = log w ++ l /\
            Forall (fun e => forall k, quota_of e = Some k ->
                                       exists q, In q qs /\ pk q = k) l.
Proof.
  induction qs as [|q qs IH]; intros _cache w.
  - exists []. cbn. now rewrite app_nil_r.
  - cbn [availability_each]. unfold bind.
    destruct (availability_trace q None count_waitinglist false _cache w)
      as (l1 & log1 & about1).
    destruct (availability q None count_waitinglist _cache false w)
      as [[[v q'] cache'] w'].
    cbn [fst snd] in *.
    destruct (IH cache' w') as (l2 & log2 & about2).
    destruct (availability_each qs count_waitinglist cache' w')
      as [[vs cache''] w''].
    cbn [fst snd ret] in *.
    exists (l1 ++ l2). split; [now rewrite log2, log1, app_assoc|].
    apply Forall_app. split.
    + eapply Forall_impl; [exact about1|]. intros e one k found.
      exists q. split; [now left|]. symmetry. now apply one.
    + eapply Forall_impl; [exact about2|]. intros e some k found.
      destruct (some k found) as (q0 & mem & same). exists q0.
      split; [now right|assumption].
Qed.

Lemma py_set_pk (l : list Quota) (x : Quota) :
  In x l -> exists y, In y (py_set l) /\ pk y = pk x.
Proof.
  induction l as [|q l IH]; [intros []|].
  intros [<-|later]; [exists q; split; [now left|reflexivity]|].
  destruct (IH later) as (y & mem & same).
  destruct (Z.eqb_spec (pk y) (pk q)) as [first|other].
  - exists q. split; [now left|congruence].
  - exists y. split; [|assumption]. right.
    apply List.filter_In. split; [assumption|].
    now apply negb_true_iff, Z.eqb_neq.
Qed.

(** No quota left to check has the primary key of an ignored one. *)
Lemma quotas_to_check_not_ignored (quotas : list Quota)
    (_subevent_quotas : option (list Quota)) (ignored : list Quota)
    (sub : option Z) (i q : Quota) :
  In i ignored ->
  In q (quotas_to_check quotas _subevent_quotas (Some ignored) sub) ->
  pk q <> pk i.
Proof.
  intros listed. unfold quotas_to_check.
  destruct ignored as [|i0 rest]; [destruct listed|].
  unfold set_minus. rewrite List.filter_In. intros [_ kept] same.
  apply negb_true_iff in kept.
  destruct (py_set_pk (i0 :: rest) i listed) as (y & mem & pk_y).
  assert (found : existsb (fun i' => pk i' =? pk q) (py_set (i0 :: rest))
                  = true).
  { apply existsb_exists. exists y. split; [assumption|].
    apply Z.eqb_eq. congruence. }
  congruence.
Qed.

Lemma check_quotas_trace (qs : list Quota) (count_waitinglist : bool)
    (_cache : option CallCache) (w : World) (e : Effect) (k : Z) :
  In e (added (log w)
          (log (snd ((rs <- availability_each qs count_waitinglist _cache ;;
                      ret (py_min (fst rs), snd rs)) w)))) ->
  quota_of e = Some k -> exists q, In q qs /\ pk q = k.
Proof.
  unfold bind, ret.
  destruct (availability_each_trace count_waitinglist qs _cache w)
    as (l & grown & concerned).
  destruct (availability_each qs count_waitinglist _cache w) as [rs w'].
  cbn [fst snd] in *. rewrite grown, added_app.
  intros mem. rewrite List.Forall_forall in concerned. now apply concerned.
Qed.

(** X8.  [check_quotas] leaves the quotas in [ignored_quotas] alone: no
    effect of the call, on an item or on a variation, is a demand query, a
    computation or a save of a quota with the primary key of an ignored
    one. *)
Theorem check_quotas_skips_ignored (it : Item.t) (v : ItemVariation.t)
    (ignored : list Quota) (count_waitinglist : bool) (sub : option Z)
    (_cache : option CallCache) (w : World) (i : Quota) (e : Effect) :
  In i ignored ->
  (In e (added (log w)
           (log (snd (Item.check_quotas it (Some ignored) count_waitinglist
                                        sub _cache w)))) ->
   quota_of e <> Some (pk i)) /\
  (In e (added (log w)
           (log (snd (ItemVariation.check_quotas v (Some ignored)
                        count_waitinglist sub _cache w)))) ->
   quota_of e <> Some (pk i)).
Proof.
  intros listed.
  rewrite Item_check_quotas_eq, ItemVariation_check_quotas_eq.
  split.
  - destruct (py_not sub && Item.event_has_subevents it);
      [cbn; now rewrite added_refl|].
    destruct (quotas_to_check (Item.quotas it) _ _ _) as [|q qs] eqn:left;
      [cbn; now rewrite added_refl|].
    destruct (Item.has_variations it); [cbn; now rewrite added_refl|].
    intros mem concerned.
    destruct (check_quotas_trace _ _ _ _ _ _ mem concerned)
      as (q0 & checked & same).
    rewrite <- left in checked.
    now apply (quotas_to_check_not_ignored _ _ _ _ i q0 listed checked).
  - destruct (py_not sub && Item.event_has_subevents (ItemVariation.item v));
      [cbn; now rewrite added_refl|].
    destruct (quotas_to_check (ItemVariation.quotas v) _ _ _) as [|q qs]
      eqn:left; [cbn; now rewrite added_refl|].
    intros mem concerned.
    destruct (check_quotas_trace _ _ _ _ _ _ mem concerned)
      as (q0 & checked & same).
    rewrite <- left in checked.
    now apply (quotas_to_check_not_ignored _ _ _ _ i q0 listed checked).
Qed.

Lemma check_quotas_skips_ignored_witness :
  ~ In (EvQuery 4 QPaid)
       (added (log sample_world)
          (log (snd (Item.check_quotas sample_item (Some [quota_small]) true
                                       None None sample_world)))).
Proof.
  intros mem.
  apply (check_quotas_skips_ignored sample_item sample_variation
           [quota_small] true None None sample_world quota_small
           (EvQuery 4 QPaid)); [now left|exact mem|reflexivity].
Defined.

(** ** The order of the quotas *)

Lemma at_most_as_available_antisym (a b : CachedVerdict) :
  at_most_as_available a b -> at_most_as_available b a ->
  min_key a = min_key b.
Proof.
  unfold at_most_as_available, min_key. cbn [fst snd].
  destruct (fst a), (fst b); try tauto.
  intros [lt|[-> le]] [lt'|[same le']]; try lia.
  f_equal. lia.
Qed.

Lemma NoDup_map_filter {A B : Type} (f : A -> B) (p : A -> bool)
    (l : list A) :
  List.NoDup (map f l) -> List.NoDup (map f (List.filter p l)).
Proof.
  induction l as [|x l IH]; cbn; [auto|].
  rewrite List.NoDup_cons_iff. intros [fresh rest].
  destruct (p x); cbn; auto.
  rewrite List.NoDup_cons_iff. split; auto.
  rewrite List.in_map_iff in *. intros (y & same & mem).
  apply fresh. exists y. split; [assumption|].
  now apply List.filter_In in mem.
Qed.

Lemma filter_all {A : Type} (p : A -> bool) (l : list A) :
  (forall x, In x l -> p x = true) -> List.filter p l = l.
Proof.
  induction l as [|x l IH]; cbn; [reflexivity|]. intros all.
  rewrite (all x) by auto. f_equal. auto.
Qed.

(** A list of quotas with distinct primary keys is its own set. *)
Lemma py_set_NoDup (l : list Quota) :
  List.NoDup (map pk l) -> py_set l = l.
Proof.
  induction l as [|q l IH]; cbn; [reflexivity|].
  rewrite List.NoDup_cons_iff. intros [fresh rest].
  rewrite IH by assumption. f_equal. apply filter_all.
  intros x mem. apply negb_true_iff, Z.eqb_neq. intros same.
  apply fresh. rewrite <- same. now apply List.in_map.
Qed.

(** The quotas left to check are the same in whatever order the quotas of
    the item are listed. *)
Lemma quotas_to_check_reordered (reorder : list Quota -> list Quota)
    (quotas : list Quota)
    (_subevent_quotas ignored_quotas : option (list Quota)) (sub : option Z)
    (q : Quota) :
  (forall l, Permutation l (reorder l)) ->
  List.NoDup (map pk (default quotas _subevent_quotas)) ->
  In q (quotas_to_check quotas _subevent_quotas ignored_quotas sub) <->
  In q (quotas_to_check (reorder quotas) (reorder <$> _subevent_quotas)
                        ignored_quotas sub).
Proof.
  intros same distinct.
  assert (members : forall l x, In x l <-> In x (reorder l)).
  { intros l x. split; apply Permutation_in;
      [apply same|apply Permutation_sym, same]. }
  assert (distinct' : forall l, List.NoDup (map pk l) ->
                                List.NoDup (map pk (reorder l))).
  { intros l once. eapply Permutation_NoDup; [|exact once].
    apply Permutation_map, same. }
  unfold quotas_to_check.
  assert (step : In q (py_set (default (quotas_for quotas sub)
                                       _subevent_quotas)) <->
                 In q (py_set (default (quotas_for (reorder quotas) sub)
                                       (reorder <$> _subevent_quotas)))).
  { destruct _subevent_quotas as [l|];
      cbn [default from_option id fmap option_fmap option_map] in *.
    - rewrite !py_set_NoDup by auto. apply members.
    - unfold quotas_for. destruct sub as [s|].
      + rewrite !py_set_NoDup by (apply NoDup_map_filter; auto).
        rewrite !List.filter_In, <- members. reflexivity.
      + rewrite !py_set_NoDup by auto. apply members. }
  destruct ignored_quotas as [[|i l]|]; auto.
  unfold set_minus. rewrite !List.filter_In, step. reflexivity.
Qed.

Lemma compute_time_independent (size_ : option Z) (d : Demand) (t t' : Z)
    (count_waitinglist : bool) :
  blocking d t = blocking d t' -> cart d t = cart d t' ->
  fst (compute size_ d t count_waitinglist)
  = fst (compute size_ d t' count_waitinglist).
Proof.
  intros same_blocking same_cart. unfold compute.
  rewrite same_blocking, same_cart.
  destruct size_ as [C|]; [|reflexivity].
  repeat match goal with
         | |- context [?a <=? ?b] => destruct (a <=? b)
         end;
    destruct count_waitinglist; reflexivity.
Qed.

(** The last line of [check_quotas] on two lists with the same quotas. *)
Lemma min_of_availabilities_permuted (qs qs' : list Quota)
    (count_waitinglist : bool) (w : World) :
  time_independent (demand w) ->
  qs <> [] -> qs' <> [] ->
  (forall q, In q qs <-> In q qs') ->
  let run l :=
    (rs <- availability_each l count_waitinglist None ;;
     ret (py_min (fst rs), snd rs)) w in
  same_key (fst (fst (run qs))) (fst (fst (run qs'))).
Proof.
  intros still ne ne' same. cbn zeta.
  pose proof (least_of_availabilities qs count_waitinglist None w ne) as least.
  pose proof (least_of_availabilities qs' count_waitinglist None w ne')
    as least'.
  unfold least_available in least, least'.
  destruct qs as [|q0 qs0]; [congruence|].
  destruct qs' as [|q0' qs0']; [congruence|].
  destruct least as (v & -> & (before & q & after & split_ & ->) & le).
  destruct least' as (v' & -> & (before' & q' & after' & split' & ->) & le').
  cbn [fst same_key].
  assert (verdict : forall l x,
            verdict_after l x count_waitinglist None w =
            of_verdict (computed x 0 count_waitinglist w)).
  { intros l x. rewrite verdict_after_none, !computed_compute. f_equal.
    apply compute_time_independent; apply still. }
  assert (mem : In q (q0 :: qs0))
    by (rewrite split_; apply in_elt).
  assert (mem' : In q' (q0' :: qs0'))
    by (rewrite split'; apply in_elt).
  apply at_most_as_available_antisym.
  - apply same in mem'. apply in_split in mem' as (l1 & l2 & found).
    specialize (le l1 q' l2 found). now rewrite !verdict in *.
  - apply same in mem. apply in_split in mem as (l1 & l2 & found).
    specialize (le' l1 q l2 found). now rewrite !verdict in *.
Qed.

(** X9.  When the demand counts do not depend on the time they are asked
    for and no call cache is passed, the outcome of [check_quotas] does not
    depend on the order in which the quotas of the item or variation, each
    listed once, are asked: with the quotas in any other order the call
    raises the same exception or returns a verdict with the same state and
    the same number ([None] read as [sys.maxsize]). *)
Theorem check_quotas_order_independent (it : Item.t) (v : ItemVariation.t)
    (reorder : list Quota -> list Quota)
    (ignored_quotas : option (list Quota)) (count_waitinglist : bool)
    (sub : option Z) (w : World) :
  time_independent (demand w) ->
  (forall l, Permutation l (reorder l)) ->
  (List.NoDup (map pk (default (Item.quotas it) (Item._subevent_quotas it))) ->
   same_key
     (fst (fst (Item.check_quotas it ignored_quotas count_waitinglist sub
                                  None w)))
     (fst (fst (Item.check_quotas
                  (Item.mk (reorder (Item.quotas it))
                           (reorder <$> Item._subevent_quotas it)
                           (Item.event_has_subevents it)
                           (Item.has_variations it))
                  ignored_quotas count_waitinglist sub None w)))) /\
  (List.NoDup (map pk (default (ItemVariation.quotas v)
                               (ItemVariation._subevent_quotas v))) ->
   same_key
     (fst (fst (ItemVariation.check_quotas v ignored_quotas count_waitinglist
                                           sub None w)))
     (fst (fst (ItemVariation.check_quotas
                  (ItemVariation.mk (ItemVariation.item v)
                                    (reorder (ItemVariation.quotas v))
                                    (reorder <$>
                                       ItemVariation._subevent_quotas v))
                  ignored_quotas count_waitinglist sub None w)))).
Proof.
  intros still same.
  split; intros distinct.
  - rewrite !Item_check_quotas_eq.
    cbn [Item.quotas Item._subevent_quotas Item.event_has_subevents
         Item.has_variations].
    destruct (py_not sub && Item.event_has_subevents it); [reflexivity|].
    pose proof (fun q => quotas_to_check_reordered reorder (Item.quotas it)
                           (Item._subevent_quotas it) ignored_quotas sub q
                           same distinct) as both.
    destruct (quotas_to_check (Item.quotas it) _ _ _) as [|q qs],
             (quotas_to_check (reorder _) _ _ _) as [|q' qs'].
    + reflexivity.
    + destruct (proj2 (both q') (or_introl eq_refl)).
    + destruct (proj1 (both q) (or_introl eq_refl)).
    + destruct (Item.has_variations it); [reflexivity|].
      now apply min_of_availabilities_permuted.
  - rewrite !ItemVariation_check_quotas_eq.
    cbn [ItemVariation.quotas ItemVariation._subevent_quotas
         ItemVariation.item].
    destruct (py_not sub && Item.event_has_subevents (ItemVariation.item v));
      [reflexivity|].
    pose proof (fun q => quotas_to_check_reordered reorder
                           (ItemVariation.quotas v)
                           (ItemVariation._subevent_quotas v) ignored_quotas
                           sub q same distinct) as both.
    destruct (quotas_to_check (ItemVariation.quotas v) _ _ _) as [|q qs],
             (quotas_to_check (reorder _) _ _ _) as [|q' qs'].
    + reflexivity.
    + destruct (proj2 (both q') (or_introl eq_refl)).
    + destruct (proj1 (both q) (or_introl eq_refl)).
    + now apply min_of_availabilities_permuted.
Qed.

Lemma check_quotas_order_independent_witness :
  same_key
    (fst (fst (Item.check_quotas sample_item None true None None
                                 sample_world)))
    (fst (fst (Item.check_quotas
                 (Item.mk (rev (Item.quotas sample_item))
                          (@rev Quota <$> Item._subevent_quotas sample_item)
                          (Item.event_has_subevents sample_item)
                          (Item.has_variations sample_item))
                 None true None None sample_world))).
Proof.
  refine (proj1 (check_quotas_order_independent
                   sample_item sample_variation (@rev Quota)
                   None true None sample_world _ _) _).
  - intros k t t'. cbn. unfold sample_demand.
    destruct (k =? 2); split; reflexivity.
  - apply Permutation_rev.
  - repeat constructor; cbn; intuition discriminate.
Defined.

(** The counts do depend on the time in general, and every quota is asked
    at another reading of the clock: in [rush_world] the order of the two
    quotas decides the verdict. *)
Example check_quotas_order_matters :
  fst (fst (Item.check_quotas sample_item None true None None rush_world))
  = Return (Some AVAILABILITY_OK, Some 10) /\
  fst (fst (Item.check_quotas
              (Item.mk [quota_small; quota_100] None false false)
              None true None None rush_world))
  = Return (Some AVAILABILITY_RESERVED, Some 0).
Proof. split; reflexivity. Qed.

(** ** Rebuilding twice *)

(** X10.  [rebuild_cache] called a second time for the same time, with the
    demand unchanged, stores what the first call stored: the fields of the
    quota in memory and the rows are the same after both. *)
Theorem rebuild_cache_idempotent (self : Quota) (t : Z) (w : World) :
  let r1 := rebuild_cache self (Some t) w in
  let r2 := rebuild_cache (fst r1) (Some t) (snd r1) in
  fst r2 = fst r1 /\ rows (snd r2) = rows (snd r1).
Proof.
  cbn zeta. rewrite (rebuild_cache_eq self). cbn zeta.
  rewrite rebuild_cache_eq. cbn zeta. cbn [fst snd demand rows].
  unfold stored, calc_time. cbn [pk size subevent].
  split; [reflexivity|]. cbn [row_of]. apply insert_insert_eq.
Qed.

(** ** The sale window of an item *)

Lemma is_available_at (self : ItemSale.t) (t : Z) (w : World) :
  fst (ItemSale.is_available self (Some t) w) = true <->
  ItemSale.active self = true /\
  (forall from, ItemSale.available_from self = Some from -> from <= t) /\
  (forall until, ItemSale.available_until self = Some until -> t <= until).
Proof.
  unfold ItemSale.is_available, bind. cbn [or_now ret].
  destruct (ItemSale.active self); cbn [negb];
    [|cbn; split; [discriminate|now intros [? _]]].
  destruct (ItemSale.available_from self) as [from|],
           (ItemSale.available_until self) as [until|];
    repeat match goal with
           | |- context [?a >? ?b] => destruct (Z.gtb_spec a b)
           | |- context [?a <? ?b] => destruct (Z.ltb_spec a b)
           end; cbn [fst ret];
    (split; [intros; repeat split; try discriminate;
             intros ? [= <-]; lia
            |intros (_ & lower & upper);
             try specialize (lower _ eq_refl);
             try specialize (upper _ eq_refl); (reflexivity || lia)]).
Qed.

(** X11.  The times at which [is_available] holds form an interval: an item
    on sale at two times is on sale at every time between them; both ends
    of the window belong to it; and an inactive item is never on sale. *)
Theorem is_available_interval (self : ItemSale.t) (w : World) :
  (forall t1 t2 t3, t1 <= t2 <= t3 ->
     fst (ItemSale.is_available self (Some t1) w) = true ->
     fst (ItemSale.is_available self (Some t3) w) = true ->
     fst (ItemSale.is_available self (Some t2) w) = true) /\
  (forall from until,
     ItemSale.active self = true ->
     ItemSale.available_from self = Some from ->
     ItemSale.available_until self = Some until -> from <= until ->
     fst (ItemSale.is_available self (Some from) w) = true /\
     fst (ItemSale.is_available self (Some until) w) = true) /\
  (ItemSale.active self = false ->
   forall t, fst (ItemSale.is_available self (Some t) w) = false).
Proof.
  split; [|split].
  - intros t1 t2 t3 between. rewrite !is_available_at.
    intros (on & lower & _) (_ & _ & upper).
    split; [assumption|split].
    + intros from found. specialize (lower from found). lia.
    + intros last found. specialize (upper last found). lia.
  - intros first last on lower upper ordered. rewrite !is_available_at.
    rewrite lower, upper.
    split; (split; [assumption|split; intros ? [= <-]; lia]).
  - intros off t. apply not_true_is_false. rewrite is_available_at.
    intros [on _]. congruence.
Qed.

(** X12.  [clean_available] accepts a pair of dates exactly when an active
    item with that window is on sale at some time: it rejects the windows
    that end before they start, in which [is_available] never holds. *)
Theorem clean_available_window (from_date until_date : option Z) (w : World) :
  ItemSale.clean_available from_date until_date = Valid <->
  exists t,
    fst (ItemSale.is_available (ItemSale.mk true from_date until_date)
                               (Some t) w) = true.
Proof.
  unfold ItemSale.clean_available.
  destruct from_date as [from|], until_date as [until|];
    try destruct (Z.gtb_spec from until).
  - split; [discriminate|]. intros [t on]. apply is_available_at in on.
    destruct on as (_ & lower & upper). cbn in lower, upper.
    specialize (lower _ eq_refl). specialize (upper _ eq_refl). lia.
  - split; [intros _|reflexivity]. exists from. apply is_available_at.
    cbn. repeat split; intros ? [= <-]; lia.
  - split; [intros _|reflexivity]. exists from. apply is_available_at.
    cbn. repeat split; intros ? [=]; subst; lia.
  - split; [intros _|reflexivity]. exists until. apply is_available_at.
    cbn. repeat split; intros ? [=]; subst; lia.
  - split; [intros _|reflexivity]. exists 0. apply is_available_at.
    cbn. repeat split; intros ? [=].
Qed.

(** ** Add-ons *)

(** X13.  [ItemAddOn.clean] accepts exactly the add-ons with
    [0 <= min_count <= max_count].  The minimum is checked first, then the
    maximum, then their order: the error about the maximum is raised
    exactly when the minimum is fine and the maximum negative, and the
    error about their order exactly when both are non-negative and the
    maximum is below the minimum. *)
Theorem addon_clean_counts (self : ItemAddOn.t) :
  let lo := ItemAddOn.min_count self in
  let hi := ItemAddOn.max_count self in
  (ItemAddOn.clean self = Valid <-> 0 <= lo <= hi) /\
  (ItemAddOn.clean self = ItemAddOn.min_count_error <-> lo < 0) /\
  (ItemAddOn.clean self = ItemAddOn.max_count_error <-> 0 <= lo /\ hi < 0) /\
  (ItemAddOn.clean self = ItemAddOn.max_min_count_error <-> 0 <= hi < lo).
Proof.
  unfold ItemAddOn.clean, ItemAddOn.clean_min_count,
    ItemAddOn.clean_max_count, ItemAddOn.clean_max_min_count, and_then,
    ItemAddOn.min_count_error, ItemAddOn.max_count_error,
    ItemAddOn.max_min_count_error.
  cbn zeta.
  repeat match goal with
         | |- context [?a <? ?b] => destruct (Z.ltb_spec a b)
         end;
    repeat split; intros; try discriminate; try lia; try reflexivity.
Qed.

Lemma NoDup_map_In_inj {A B : Type} (f : A -> B) (l : list A) (x y : A) :
  List.NoDup (map f l) -> In x l -> In y l -> f x = f y -> x = y.
Proof.
  induction l as [|z l IH]; cbn; [tauto|].
  rewrite List.NoDup_cons_iff, List.in_map_iff.
  intros [fresh rest] [<-|in_x] [<-|in_y] same; auto.
  - exfalso. apply fresh. eauto.
  - exfalso. apply fresh. eauto.
Qed.

(** X14.  [clean_categories] keeps the categories of an item's add-ons
    distinct.  If they are distinct and a category is accepted, the
    category belongs to the event of the item, and the add-ons stay
    distinct when a new add-on with this category is added, or when the
    edited add-on is stored with it. *)
Theorem clean_categories_keeps_unique (event : Z)
    (addons : list ItemAddOn.t) (addon : option ItemAddOn.t)
    (new_category : ItemCategory.t) (fresh : ItemAddOn.t) :
  List.NoDup (map ItemAddOn.addon_category addons) ->
  ItemAddOn.addon_category fresh = ItemCategory.id new_category ->
  ItemAddOn.clean_categories event (Some addons) addon new_category = Valid ->
  ItemCategory.event new_category = event /\
  match addon with
  | None => List.NoDup (map ItemAddOn.addon_category (fresh :: addons))
  | Some a =>
    In a addons ->
    List.NoDup (map ItemAddOn.addon_category
             (fresh :: List.filter
                         (fun x => negb (ItemAddOn.pk x =? ItemAddOn.pk a))
                         addons))
  end.
Proof.
  intros distinct category. unfold ItemAddOn.clean_categories.
  destruct (Z.eqb_spec event (ItemCategory.event new_category)) as [->|];
    [cbn [negb]|discriminate].
  assert (absent : existsb (fun a => ItemAddOn.addon_category a
                                     =? ItemCategory.id new_category) addons
                   = false ->
                   forall x, In x addons ->
                   ItemAddOn.addon_category x <> ItemCategory.id new_category).
  { intros none x mem same.
    assert (existsb (fun a => ItemAddOn.addon_category a
                              =? ItemCategory.id new_category) addons = true)
      by (apply existsb_exists; exists x; split; [assumption|];
          now apply Z.eqb_eq).
    congruence. }
  destruct addon as [a|].
  - destruct (Z.eqb_spec (ItemAddOn.addon_category a)
                         (ItemCategory.id new_category)) as [kept|changed];
      cbn [negb].
    + intros _. split; [reflexivity|]. intros mem. cbn [map].
      rewrite List.NoDup_cons_iff. split; [|now apply NoDup_map_filter].
      rewrite List.in_map_iff. intros (x & same & others).
      apply List.filter_In in others. destruct others as [in_x other].
      assert (x = a)
        by (apply (NoDup_map_In_inj ItemAddOn.addon_category addons);
            auto; congruence).
      subst x. now rewrite Z.eqb_refl in other.
    + destruct (existsb _ addons) eqn:taken; [discriminate|].
      intros _. split; [reflexivity|]. intros mem. cbn [map].
      rewrite List.NoDup_cons_iff. split; [|now apply NoDup_map_filter].
      rewrite List.in_map_iff. intros (x & same & others).
      apply List.filter_In in others. destruct others as [in_x _].
      apply (absent eq_refl x in_x). congruence.
  - destruct (existsb _ addons) eqn:taken; [discriminate|].
    intros _. split; [reflexivity|]. cbn [map].
    rewrite List.NoDup_cons_iff. split; [|assumption].
    rewrite List.in_map_iff. intros (x & same & in_x).
    apply (absent eq_refl x in_x). congruence.
Qed.

Lemma clean_categories_keeps_unique_witness :
  List.NoDup (map ItemAddOn.addon_category (ItemAddOn.mk 3 7 0 1 :: sample_addons)).
Proof.
  apply (clean_categories_keeps_unique 1 sample_addons None sample_category
           (ItemAddOn.mk 3 7 0 1)).
  - repeat constructor; cbn; intuition discriminate.
  - reflexivity.
  - reflexivity.
Defined.

(** ** The scope of a quota *)

Lemma clean_variations_valid (items : list ItemRow)
    (variations : list VariationRow) :
  Quota_clean_variations items variations = Valid <->
  forall v, In v variations ->
            exists i, In i items /\ item_id i = variation_item v.
Proof.
  induction variations as [|v variations IH]; cbn.
  - split; [intros _ ? []|reflexivity].
  - destruct (existsb _ items) eqn:listed; cbn [negb].
    + apply existsb_exists in listed. destruct listed as (i & mem & same).
      apply Z.eqb_eq in same. rewrite IH. split.
      * intros rest v' [<-|later]; eauto.
      * intros all v' later. apply all. now right.
    + split; [discriminate|]. intros all.
      destruct (all v (or_introl eq_refl)) as (i & mem & same).
      assert (existsb (fun i => item_id i =? variation_item v) items = true)
        by (apply existsb_exists; exists i; split; [assumption|];
            now apply Z.eqb_eq).
      congruence.
Qed.

Lemma clean_items_valid (event : Z) (items : list ItemRow)
    (variations : list VariationRow) :
  Quota_clean_items event items variations = Valid <->
  forall i, In i items ->
            item_event i = event /\
            (item_has_variations i = true ->
             exists v, In v variations /\ variation_item v = item_id i).
Proof.
  induction items as [|item items IH]; cbn.
  - split; [intros _ ? []|reflexivity].
  - destruct (Z.eqb_spec event (item_event item)) as [same|other];
      cbn [negb].
    + destruct (item_has_variations item) eqn:has; cbn [andb].
      * destruct (existsb _ variations) eqn:listed; cbn [negb].
        -- apply existsb_exists in listed.
           destruct listed as (v & mem & of_item). apply Z.eqb_eq in of_item.
           rewrite IH. split.
           ++ intros rest i [<-|later]; [|now apply rest].
              split; [congruence|eauto].
           ++ intros all i later. apply all. now right.
        -- split; [discriminate|]. intros all.
           destruct (all item (or_introl eq_refl)) as (_ & some).
           destruct (some has) as (v & mem & of_item).
           assert (existsb (fun var => variation_item var =? item_id item)
                           variations = true)
             by (apply existsb_exists; exists v; split; [assumption|];
                 now apply Z.eqb_eq).
           congruence.
      * rewrite IH. split.
        -- intros rest i [<-|later]; [|now apply rest].
           split; [congruence|]. congruence.
        -- intros all i later. apply all. now right.
    + split; [discriminate|]. intros all.
      destruct (all item (or_introl eq_refl)) as (same & _). congruence.
Qed.

(** X15.  [Quota.clean_items] and [Quota.clean_variations] both accept
    exactly when every item belongs to the event, every item that has
    variations has one of them in the list, and every variation belongs to
    an item of the list; every variation then belongs to an item of the
    event. *)
Theorem quota_scope_validated (event : Z) (items : list ItemRow)
    (variations : list VariationRow) :
  (Quota_clean_items event items variations = Valid /\
   Quota_clean_variations items variations = Valid <->
   (forall i, In i items ->
      item_event i = event /\
      (item_has_variations i = true ->
       exists v, In v variations /\ variation_item v = item_id i)) /\
   (forall v, In v variations ->
      exists i, In i items /\ item_id i = variation_item v)) /\
  (Quota_clean_items event items variations = Valid ->
   Quota_clean_variations items variations = Valid ->
   forall v, In v variations ->
     exists i, In i items /\ item_id i = variation_item v /\
               item_event i = event).
Proof.
  rewrite clean_items_valid, clean_variations_valid.
  split; [tauto|].
  intros of_event listed v mem.
  destruct (listed v mem) as (i & in_i & same).
  exists i. repeat split; auto. now apply of_event.
Qed.

(** ** Orderings *)

(** X16.  [ItemVariation.__lt__] is the order by sort key of
    [ItemCategory.__lt__] and [Question.__lt__], position first and id
    among equal positions, and it is a strict total order on variations
    with distinct ids: no variation is below itself, the order is
    transitive, and of two variations with different ids exactly one is
    below the other. *)
Theorem variation_lt_strict_total_order (a b c : VariationRow) :
  (forall event event',
     ItemVariation_lt a b =
     ItemCategory.lt
       (ItemCategory.mk (variation_id a) event (variation_position a))
       (ItemCategory.mk (variation_id b) event' (variation_position b))) /\
  ItemVariation_lt a a = false /\
  (ItemVariation_lt a b = true -> ItemVariation_lt b c = true ->
   ItemVariation_lt a c = true) /\
  (variation_id a <> variation_id b ->
   ItemVariation_lt a b = negb (ItemVariation_lt b a)).
Proof.
  split; [reflexivity|].
  unfold ItemVariation_lt.
  repeat match goal with
         | |- context [?x =? ?y] => destruct (Z.eqb_spec x y)
         | |- context [?x <? ?y] => destruct (Z.ltb_spec x y)
         end; repeat split; intros; cbn [negb];
    try discriminate; try reflexivity; lia.
Qed.

(** ** Identifiers of questions *)

Lemma clean_identifier_valid (objects : list Question.t) (event : Z)
    (code : string) (instance : option Question.t) :
  Question._clean_identifier objects event code instance = Valid <->
  forall q, In q objects -> Question.event q = event ->
            Question.identifier q = code ->
            exists i, instance = Some i /\ Question.pk q = Question.pk i.
Proof.
  unfold Question._clean_identifier.
  set (same := fun q : Question.t => _ && _).
  assert (same_spec : forall q, same q = true <->
                                Question.event q = event /\
                                Question.identifier q = code).
  { intros q. unfold same.
    now rewrite andb_true_iff, Z.eqb_eq, bool_decide_eq_true. }
  destruct instance as [i|].
  - destruct (List.filter _ (List.filter same objects)) as [|q0 qs] eqn:found.
    + split; [intros _|reflexivity]. intros q mem of_event coded.
      exists i. split; [reflexivity|].
      destruct (decide (Question.pk q = Question.pk i)); [assumption|].
      assert (In q []) as [].
      rewrite <- found. apply List.filter_In. split.
      * apply List.filter_In. split; [assumption|]. now apply same_spec.
      * now apply negb_true_iff, bool_decide_eq_false.
    + split; [discriminate|]. intros all.
      assert (mem : In q0 (q0 :: qs)) by now left.
      rewrite <- found in mem. apply List.filter_In in mem.
      destruct mem as [mem other]. apply List.filter_In in mem.
      destruct mem as [mem both]. apply same_spec in both.
      destruct both as [of_event coded].
      destruct (all q0 mem of_event coded) as (i' & [= <-] & equal).
      apply negb_true_iff, bool_decide_eq_false in other. contradiction.
  - destruct (List.filter same objects) as [|q0 qs] eqn:found.
    + split; [intros _|reflexivity]. intros q mem of_event coded.
      assert (In q []) as [].
      rewrite <- found. apply List.filter_In. split; [assumption|].
      now apply same_spec.
    + split; [discriminate|]. intros all.
      assert (mem : In q0 (q0 :: qs)) by now left.
      rewrite <- found in mem. apply List.filter_In in mem.
      destruct mem as [mem both]. apply same_spec in both.
      destruct both as [of_event coded].
      now destruct (all q0 mem of_event coded) as (i' & [=] & _).
Qed.

(** X17.  In a table without repeated identifiers a saved question passes
    the check of its own identifier, and the identifier of any other
    question of the same event is refused. *)
Theorem clean_identifier_own (objects : list Question.t) (q : Question.t) :
  unique_identifiers objects -> In q objects ->
  Question.clean_identifier objects q (Question.identifier q) = Valid /\
  (forall q', In q' objects -> Question.pk q' <> Question.pk q ->
              Question.event q' = Question.event q ->
              Question.clean_identifier objects q (Question.identifier q')
              <> Valid).
Proof.
  intros unique saved. unfold Question.clean_identifier. split.
  - apply clean_identifier_valid. intros q' mem of_event coded.
    exists q. split; [reflexivity|].
    assert (q' = q) as ->; [|reflexivity].
    apply (NoDup_map_In_inj question_key objects); auto.
    unfold question_key. congruence.
  - intros q' mem other of_event accepted.
    rewrite clean_identifier_valid in accepted.
    destruct (accepted q' mem of_event eq_refl) as (i & [= <-] & same).
    contradiction.
Qed.

Lemma clean_identifier_own_witness :
  Question.clean_identifier sample_questions
                            (Question.mk (Some 1) 1 "AGE" "N" true)
                            "AGE" = Valid.
Proof.
  apply (clean_identifier_own sample_questions
           (Question.mk (Some 1) 1 "AGE" "N" true)).
  - repeat constructor; cbn; intuition discriminate.
  - now left.
Defined.

(** X18.  An identifier that [_clean_identifier] accepts keeps the table
    free of repeated identifiers: for a new question, when the question is
    added with it; for a question that exists, when its row is replaced by
    one with the new identifier. *)
Theorem clean_identifier_keeps_unique (objects : list Question.t)
    (event : Z) (code : string) (instance : option Question.t) :
  unique_identifiers objects ->
  Question._clean_identifier objects event code instance = Valid ->
  match instance with
  | None =>
    forall new, Question.event new = event ->
      unique_identifiers (Question.with_identifier code new :: objects)
  | Some i =>
    Question.event i = event ->
    unique_identifiers
      (Question.with_identifier code i
       :: List.filter (fun q => negb (bool_decide (Question.pk q
                                                   = Question.pk i)))
                      objects)
  end.
Proof.
  unfold unique_identifiers. intros unique accepted.
  rewrite clean_identifier_valid in accepted.
  destruct instance as [i|]; [intros same_event|intros new same_event];
    cbn [map];
    rewrite List.NoDup_cons_iff; (split; [|auto using NoDup_map_filter]);
    rewrite List.in_map_iff; intros (q & key & mem);
    unfold question_key in key; cbn in key; injection key as of_event coded;
    rewrite same_event in of_event.
  - apply List.filter_In in mem. destruct mem as [mem other].
    apply negb_true_iff, bool_decide_eq_false in other.
    destruct (accepted q mem of_event coded) as (i' & [= <-] & same).
    contradiction.
  - now destruct (accepted q mem of_event coded) as (i' & [=] & _).
Qed.

Lemma clean_identifier_keeps_unique_witness :
  unique_identifiers
    (Question.with_identifier "SIZE" (Question.mk None 1 "" "S" false)
     :: sample_questions).
Proof.
  apply (clean_identifier_keeps_unique sample_questions 1 "SIZE" None).
  - repeat constructor; cbn; intuition discriminate.
  - reflexivity.
  - reflexivity.
Defined.

(** ** The quotas of a date *)

Lemma py_set_In (l : list Quota) (q : Quota) : In q (py_set l) -> In q l.
Proof.
  induction l as [|x l IH]; cbn; [tauto|].
  intros [<-|later]; [now left|right].
  apply List.filter_In in later. tauto.
Qed.

Lemma quotas_to_check_In (quotas : list Quota)
    (_subevent_quotas ignored_quotas : option (list Quota)) (sub : option Z)
    (q : Quota) :
  In q (quotas_to_check quotas _subevent_quotas ignored_quotas sub) ->
  In q (default (quotas_for quotas sub) _subevent_quotas).
Proof.
  unfold quotas_to_check. intros mem. apply py_set_In.
  destruct ignored_quotas as [[|i l]|]; auto.
  unfold set_minus in mem. apply List.filter_In in mem. tauto.
Qed.

(** X19.  [check_quotas] for a date of an event series, on an item or a
    variation without the [_subevent_quotas] attribute, touches only quotas
    of that date: every demand query, computation or save of the call
    concerns one of the quotas of the item or variation whose subevent is
    the one asked for. *)
Theorem check_quotas_of_subevent (it : Item.t) (v : ItemVariation.t)
    (ignored_quotas : option (list Quota)) (count_waitinglist : bool)
    (s : Z) (_cache : option CallCache) (w : World) (e : Effect) (k : Z) :
  quota_of e = Some k ->
  (Item._subevent_quotas it = None ->
   In e (added (log w)
           (log (snd (Item.check_quotas it ignored_quotas count_waitinglist
                                        (Some s) _cache w)))) ->
   exists q, In q (Item.quotas it) /\ pk q = k /\ subevent q = Some s) /\
  (ItemVariation._subevent_quotas v = None ->
   In e (added (log w)
           (log (snd (ItemVariation.check_quotas v ignored_quotas
                        count_waitinglist (Some s) _cache w)))) ->
   exists q, In q (ItemVariation.quotas v) /\ pk q = k /\
             subevent q = Some s).
Proof.
  intros concerned.
  assert (of_date : forall quotas q,
            In q (quotas_to_check quotas None ignored_quotas (Some s)) ->
            In q quotas /\ subevent q = Some s).
  { intros quotas q mem. apply quotas_to_check_In in mem. cbn in mem.
    apply List.filter_In in mem. destruct mem as [mem same].
    now apply bool_decide_eq_true in same. }
  rewrite Item_check_quotas_eq, ItemVariation_check_quotas_eq.
  cbn [py_not andb]. split; intros ->.
  - destruct (quotas_to_check (Item.quotas it) _ _ _) as [|q qs] eqn:left;
      [cbn; now rewrite added_refl|].
    destruct (Item.has_variations it); [cbn; now rewrite added_refl|].
    intros mem.
    destruct (check_quotas_trace _ _ _ _ _ _ mem concerned)
      as (q0 & checked & same).
    rewrite <- left in checked. destruct (of_date _ _ checked). eauto.
  - destruct (quotas_to_check (ItemVariation.quotas v) _ _ _) as [|q qs]
      eqn:left; [cbn; now rewrite added_refl|].
    intros mem.
    destruct (check_quotas_trace _ _ _ _ _ _ mem concerned)
      as (q0 & checked & same).
    rewrite <- left in checked. destruct (of_date _ _ checked). eauto.
Qed.

Lemma check_quotas_of_subevent_witness :
  exists q, In q [mkQuota 1 (Some 9) (Some 100) None None None None;
                  quota_small] /\
            pk q = 1 /\ subevent q = Some 9.
Proof.
  apply (check_quotas_of_subevent
           (Item.mk [mkQuota 1 (Some 9) (Some 100) None None None None;
                     quota_small] None true false)
           sample_variation None true 9 None sample_world
           (EvQuery 1 QPaid) 1); [reflexivity|reflexivity|].
  vm_compute. auto.
Defined.

(** ** Generated identifiers *)

Lemma identifier_exists_spec (objects : list Question.t) (event : Z)
    (code : string) :
  Question.identifier_exists objects event code = true <->
  exists q, In q objects /\ Question.event q = event /\
            Question.identifier q = code.
Proof.
  unfold Question.identifier_exists. rewrite existsb_exists.
  split; intros (q & mem & same); exists q; split; auto.
  - apply andb_true_iff in same. destruct same as [of_event coded].
    apply Z.eqb_eq in of_event. now apply bool_decide_eq_true in coded.
  - destruct same as [-> ->].
    now rewrite Z.eqb_refl, bool_decide_true.
Qed.

Lemma draw_identifier_first (objects : list Question.t) (event : Z)
    (random : nat -> string) (k : nat) :
  forall fuel n,
  (forall j, (j < k)%nat ->
             Question.identifier_exists objects event (random (n + j)%nat)
             = true) ->
  Question.identifier_exists objects event (random (n + k)%nat) = false ->
  (k < fuel)%nat ->
  Question.draw_identifier fuel objects event random n
  = Some (random (n + k)%nat, S (n + k)).
Proof.
  induction k as [|k IH]; intros fuel n used free enough;
    (destruct fuel as [|fuel]; [lia|]); cbn [Question.draw_identifier].
  - rewrite Nat.add_0_r in free. rewrite free. now rewrite Nat.add_0_r.
  - specialize (used 0%nat ltac:(lia)) as first.
    rewrite Nat.add_0_r in first. rewrite first.
    rewrite (IH fuel (S n)); [f_equal; f_equal; [f_equal|]; lia| | |lia].
    + intros j small. replace (S n + j)%nat with (n + S j)%nat by lia.
      apply used. lia.
    + now replace (S n + k)%nat with (n + S k)%nat by lia.
Qed.

(** X20.  [Question.save] keeps an identifier that is set and draws no
    random string for it.  Without an identifier it draws strings until one
    is no identifier of a question of the event, and stores that one: if
    the draw number [k] is the first such string, [k + 1] draws suffice, and
    the identifier saved is used by no question of the event in the
    table. *)
Theorem save_identifier (super_save : Question.t -> list Question.t ->
                                      list Question.t)
    (objects : list Question.t) (random : nat -> string) (n k fuel : nat)
    (self : Question.t) :
  (Question.identifier self <> ""%string ->
   Question.save super_save fuel objects random n self
   = Some (self, super_save self objects, n, true)) /\
  (Question.identifier self = ""%string ->
   (forall j, (j < k)%nat ->
      Question.identifier_exists objects (Question.event self)
                                 (random (n + j)%nat) = true) ->
   Question.identifier_exists objects (Question.event self)
                              (random (n + k)%nat) = false ->
   (k < fuel)%nat ->
   let saved := Question.with_identifier (random (n + k)%nat) self in
   Question.save super_save fuel objects random n self
   = Some (saved, super_save saved objects, S (n + k), true) /\
   forall q, In q objects -> Question.event q = Question.event self ->
             Question.identifier q <> Question.identifier saved).
Proof.
  unfold Question.save. split.
  - intros given. apply String.eqb_neq in given. rewrite given.
    now destruct self.
  - intros empty used free enough. rewrite empty. cbn [String.eqb].
    rewrite (draw_identifier_first objects _ random k) by assumption.
    split; [reflexivity|]. intros q mem of_event same.
    assert (Question.identifier_exists objects (Question.event self)
                                       (random (n + k)%nat) = true)
      by (apply identifier_exists_spec; eauto).
    congruence.
Qed.

Lemma save_identifier_witness :
  Question.save (fun q objects => q :: objects) 5 sample_questions
                sample_random 0 (Question.mk None 1 "" "S" false)
  = Some (Question.mk None 1 "R1" "S" false,
          Question.mk None 1 "R1" "S" false :: sample_questions, 2%nat, true).
Proof.
  apply (save_identifier (fun q objects => q :: objects) sample_questions
           sample_random 0 1 5 (Question.mk None 1 "" "S" false)).
  - reflexivity.
  - intros j small. assert (j = 0%nat) as -> by lia. reflexivity.
  - reflexivity.
  - lia.
Defined.

(** ** Answers *)

Section Answers.

Variable decimal : Type.
Variable parse_decimal : answer -> option decimal.
Variable options_get : answer -> option Z.
Variable options_filter : list string -> option (list Z).
Variable options_filter_value : answer -> option (list Z).
Variable parse_date : answer -> option Z.
Variable parse_time : answer -> option Z.
Variable parse_datetime : answer -> option Z.

Local Abbreviation clean_answer :=
  (Question.clean_answer decimal parse_decimal options_get options_filter
                         options_filter_value parse_date parse_time
                         parse_datetime).

(** X21.  For a yes/no question, [clean_answer] returns [True] exactly for
    the answers ["true"], ["True"] and [True] and for other truthy values
    that equal [True], such as the number [1].  For every other answer,
    among them ["false"], ["yes"], ["1"] and [False], it raises the required
    error if the question is required and returns [False] if it is not. *)
Theorem clean_answer_yes_no (self : Question.t) (a : answer) :
  Question.type self = Question.TYPE_BOOLEAN ->
  let yes := a = AStr "true" \/ a = AStr "True" \/ a = ABool true \/
             exists id, a = AOther true true id in
  (yes -> clean_answer self a = Accepted (Plain (ABool true))) /\
  (~ yes ->
   clean_answer self a =
   if Question.required self then Question.required_error decimal
   else Accepted (Plain (ABool false))).
Proof.
  intros boolean. cbn zeta.
  unfold Question.clean_answer. rewrite boolean.
  cbn [String.eqb Question.TYPE_BOOLEAN Question.TYPE_CHOICE
       Question.TYPE_CHOICE_MULTIPLE Ascii.eqb Bool.eqb andb].
  split.
  - intros [->|[->|[->|[id ->]]]]; cbn; now destruct (Question.required self).
  - intros no.
    destruct a as [|[|]|s|[|x l]|d|t|dt|[|] [|] id];
      cbn [truthy is_true negb andb orb];
      try (now destruct (Question.required self));
      try (exfalso; apply no; eauto 6; fail).
    destruct (String.eqb_spec s "true") as [->|lower];
      [exfalso; apply no; auto|].
    destruct (String.eqb_spec s "True") as [->|upper];
      [exfalso; apply no; auto|].
    cbn [negb andb orb].
    destruct (String.eqb s ""); cbn [negb andb orb];
      now destruct (Question.required self).
Qed.

(** X22.  A plain value that [clean_answer] returns is accepted unchanged
    when it is cleaned again: booleans, dates, times and strings that went
    through the method once pass it a second time without a parser being
    needed. *)
Theorem clean_answer_idempotent (self : Question.t) (a a' : answer) :
  clean_answer self a = Accepted (Plain a') ->
  clean_answer self a' = Accepted (Plain a').
Proof.
  unfold Question.clean_answer, Question.required_error.
  destruct (Question.required self);
    repeat match goal with
           | |- context [String.eqb (Question.type self) ?c] =>
             destruct (String.eqb (Question.type self) c)
           end;
    cbn [andb orb negb];
    destruct a as [|[|]|s|[|x l]|d|t|dt|[|] [|] id];
    cbn [truthy is_true negb andb orb];
    try (destruct (String.eqb s "true") eqn:lower;
         destruct (String.eqb s "True") eqn:upper;
         destruct (String.eqb s "") eqn:empty;
         cbn [negb andb orb]);
    repeat match goal with
           | |- context [match ?p ?x with Some _ => _ | None => _ end] =>
             destruct (p x)
           end;
    intros [= <-]; cbn [truthy is_true negb andb orb];
    rewrite ?lower, ?upper, ?empty; cbn [negb andb orb]; reflexivity.
Qed.

End Answers.

Lemma clean_answer_yes_no_witness :
  Question.clean_answer unit (fun _ => None) (fun _ => None) (fun _ => None)
                        (fun _ => None) (fun _ => None) (fun _ => None)
                        (fun _ => None)
                        (Question.mk None 1 "TERMS" "B" true)
                        (AOther true true 1)
  = Accepted (Plain (ABool true)).
Proof.
  apply (clean_answer_yes_no unit (fun _ => None) (fun _ => None)
           (fun _ => None) (fun _ => None) (fun _ => None) (fun _ => None)
           (fun _ => None) (Question.mk None 1 "TERMS" "B" true)
           (AOther true true 1)).
  - reflexivity.
  - right; right; right. now exists 1.
Defined.

Lemma clean_answer_idempotent_witness :
  Question.clean_answer unit (fun _ => None) (fun _ => None) (fun _ => None)
                        (fun _ => None) (fun _ => Some 7) (fun _ => None)
                        (fun _ => None)
                        (Question.mk None 1 "DAY" "D" true) (ADate 7)
  = Accepted (Plain (ADate 7)).
Proof.
  apply (clean_answer_idempotent unit (fun _ => None) (fun _ => None)
           (fun _ => None) (fun _ => None) (fun _ => Some 7) (fun _ => None)
           (fun _ => None) (Question.mk None 1 "DAY" "D" true)
           (AStr "2018-01-07") (ADate 7)).
  reflexivity.
Defined.
